(** * Bulk-annotation column configuration and row transformation

    A shallow embedding of [omero/util/metadata_utils.py]: the column
    configuration resolver ([BulkAnnotationConfiguration]), the row
    transformer ([KeyValueListTransformer]) and the pass-through
    transformer ([KeyValueListPassThrough]).

    - A Python dictionary with string keys is a finite map
      ([gmap string _]), a set of keys is a [gset string].
    - A function that may raise returns a [result]: the value, or the
      exception.
    - Table headers and cells are strings; configuration values are
      [pyval]s, so that truthiness tests and type errors are those of
      the code.
    - The two regular expressions are matched by hand-written matchers,
      which are shown to recognise the patterns they stand for. *)

From Stdlib Require Import Ascii String DecimalString.
From stdpp Require Import gmap strings list fin_maps.

Local Open Scope string_scope.

(** ** Python values, truthiness and exceptions *)

(** The values a configuration dictionary holds. *)
Inductive pyval : Type :=
| VNone
| VBool (b : bool)
| VInt (n : Z)
| VStr (s : string).

(** [bool(v)]: what [if v] and [not v] test. *)
Definition truthy (v : pyval) : bool :=
  match v with
  | VNone => false
  | VBool b => b
  | VInt n => negb (n =? 0)%Z
  | VStr s => negb (String.eqb s "")
  end.

(** ["%s" % v] *)
Definition format_s (v : pyval) : string :=
  match v with
  | VNone => "None"
  | VBool true => "True"
  | VBool false => "False"
  | VInt n => NilZero.string_of_int (Z.to_int n)
  | VStr s => s
  end.

(** What an [Exception(...)] raised by the configuration code complains
    about; the offending keys stand for the formatted message. *)
Inductive config_problem : Type :=
| InvalidDefaultKeys (invalid : gset string)
| MissingRequiredKeys (missing : gset string)
| EmptyName
| InvalidColumnKeys (invalid : gset string)
| TemplateParameterNotFound (token : string).

Inductive exn : Type :=
| Exception (p : config_problem)
| KeyError (k : pyval)
| IndexError
| TypeError
| AssertionError
| ReError.

Inductive result (A : Type) : Type :=
| Ok (a : A)
| Raise (e : exn).
Arguments Ok {A} a.
Arguments Raise {A} e.

Definition bind {A B : Type} (r : result A) (k : A -> result B) : result B :=
  match r with
  | Ok a => k a
  | Raise e => Raise e
  end.

Notation "x <- r ;; k" := (bind r (fun x => k))
  (at level 100, r at next level, right associativity, only parsing).

(** A list comprehension whose element expression may raise: elements are
    evaluated left to right and the first exception ends the evaluation. *)
Fixpoint comprehension {A B : Type} (f : A -> result B) (l : list A)
  : result (list B) :=
  match l with
  | [] => Ok []
  | a :: l' => b <- f a ;; bs <- comprehension f l' ;; Ok (b :: bs)
  end.

Definition raises {A : Type} (r : result A) : Prop :=
  match r with Ok _ => False | Raise _ => True end.

(** Raised by a [raise Exception(...)] statement of the configuration code. *)
Definition config_error {A : Type} (r : result A) : Prop :=
  match r with Raise (Exception _) => True | _ => False end.

(** ** Strings *)

(** Whitespace as [\s] and [str.strip] see it: space, \t, \n, \v, \f, \r. *)
Definition is_space (c : ascii) : bool :=
  let n := nat_of_ascii c in
  (n =? 32)%nat || ((9 <=? n)%nat && (n <=? 13)%nat).

(** [\w]: letters, digits and the underscore. *)
Definition is_word (c : ascii) : bool :=
  let n := nat_of_ascii c in
  ((48 <=? n)%nat && (n <=? 57)%nat) || ((65 <=? n)%nat && (n <=? 90)%nat)
  || ((97 <=? n)%nat && (n <=? 122)%nat) || (n =? 95)%nat.

Fixpoint lstrip (s : string) : string :=
  match s with
  | String c s' => if is_space c then lstrip s' else s
  | EmptyString => EmptyString
  end.

Fixpoint rstrip (s : string) : string :=
  match s with
  | String c s' =>
      match rstrip s' with
      | EmptyString => if is_space c then EmptyString else String c EmptyString
      | r => String c r
      end
  | EmptyString => EmptyString
  end.

(** [s.strip()] *)
Definition strip (s : string) : string := rstrip (lstrip s).

(** [sep] is a prefix of [s]: the remainder after it. *)
Fixpoint strip_prefix (sep s : string) : option string :=
  match sep, s with
  | EmptyString, _ => Some s
  | String a sep', String b s' =>
      if Ascii.eqb a b then strip_prefix sep' s' else None
  | String _ _, EmptyString => None
  end.

Arguments strip_prefix : simpl never.

(** [s.split(sep)] for a non-empty [sep]: cut at every occurrence found
    scanning left to right; [skip] counts the characters of an occurrence
    still to be passed over. *)
Fixpoint split_go (sep : string) (skip : nat) (s : string) : list string :=
  match s with
  | EmptyString => [EmptyString]
  | String c s' =>
      match skip with
      | S k => split_go sep k s'
      | O =>
          match strip_prefix sep s with
          | Some _ => EmptyString :: split_go sep (String.length sep - 1) s'
          | None =>
              match split_go sep 0 s' with
              | piece :: pieces => String c piece :: pieces
              | [] => [String c EmptyString]
              end
          end
      end
  end.

Definition split (sep s : string) : list string := split_go sep 0 s.

(** [s[n:]] *)
Fixpoint drop_chars (n : nat) (s : string) : string :=
  match n, s with
  | S k, String _ s' => drop_chars k s'
  | _, _ => s
  end.

(** ** The two regular expressions *)

(** Leading characters satisfying [p]: how many, and what follows. *)
Fixpoint span (p : ascii -> bool) (s : string) : nat * string :=
  match s with
  | String c s' =>
      if p c then let '(n, r) := span p s' in (S n, r) else (O, s)
  | EmptyString => (O, EmptyString)
  end.

(** [\{\{\s*value\s*\}\}] anchored at the start of [s]: the length of the
    match. Neither ['v'] nor ['}'] is whitespace, so the greedy [\s*] never
    has to give characters back. *)
Definition match_value (s : string) : option nat :=
  s1 ← strip_prefix "{{" s;
  let '(n1, s2) := span is_space s1 in
  s3 ← strip_prefix "value" s2;
  let '(n2, s4) := span is_space s3 in
  _ ← strip_prefix "}}" s4;
  Some (2 + n1 + 5 + n2 + 2)%nat.

(** [\{\{[\s\w]*}\}] anchored at the start of [s]: the length of the match. *)
Definition match_token (s : string) : option nat :=
  s1 ← strip_prefix "{{" s;
  let '(n, s2) := span (fun c => is_space c || is_word c) s1 in
  _ ← strip_prefix "}}" s2;
  Some (2 + n + 2)%nat.

(** [re.search("\{\{[\s\w]*}\}", s)]: the text of the leftmost match. *)
Fixpoint search_token (s : string) : option string :=
  match match_token s with
  | Some n => Some (substring 0 n s)
  | None =>
      match s with
      | String _ s' => search_token s'
      | EmptyString => None
      end
  end.

(** The substitution loop of [re.sub("\{\{\s*value\s*\}\}", repl, s)]:
    every match found scanning left to right is replaced by what [filter]
    returns for the matched text, and the scan resumes after the match. *)
Fixpoint sub_value_go (filter : string -> result string) (skip : nat)
    (s : string) : result string :=
  match s with
  | EmptyString => Ok EmptyString
  | String c s' =>
      match skip with
      | S k => sub_value_go filter k s'
      | O =>
          match match_value s with
          | Some n =>
              r <- filter (substring 0 n s) ;;
              rest <- sub_value_go filter (n - 1) s' ;;
              Ok (r +:+ rest)
          | None =>
              rest <- sub_value_go filter 0 s' ;;
              Ok (String c rest)
          end
      end
  end.

Definition sub_value (filter : string -> result string) (s : string)
  : result string :=
  sub_value_go filter 0 s.

(** A replacement without a backslash is used as it is. *)
Fixpoint literal_template (repl : string) : bool :=
  match repl with
  | String c repl' => negb (Ascii.eqb c "\") && literal_template repl'
  | EmptyString => true
  end.

(** ** BulkAnnotationConfiguration *)

Module BulkAnnotationConfiguration.

Definition default_defaults : gmap string pyval :=
  {[ "clientvalue" := VStr "{{ value }}";
     "includeclient" := VBool true;
     "include" := VBool true;
     "split" := VBool false;
     "type" := VStr "string";
     "visible" := VBool true ]}.

(** [get_default_cfg(cfg)]; [None] is Python's [None]. *)
Definition get_default_cfg (cfg : option (gmap string pyval))
  : result (gmap string pyval) :=
  let cfg := match cfg with
             | Some c => if decide (c = ∅) then ∅ else c
             | None => ∅
             end in
  let invalid : gset string := dom cfg ∖ dom default_defaults in
  if decide (invalid = ∅)
  then Ok (cfg ∪ default_defaults)
  else Raise (Exception (InvalidDefaultKeys invalid)).

Definition required : gset string := {[ "name" ]}.

Definition optional : gset string :=
  {[ "clientname"; "clientvalue"; "includeclient"; "position";
     "include"; "split"; "type"; "visible" ]}.

(** [validate_column_config(cfg)] *)
Definition validate_column_config (cfg : gmap string pyval) : result unit :=
  let keys : gset string := dom cfg in
  let missing := required ∖ keys in
  if decide (missing = ∅) then
    match cfg !! "name" with
    | None => Raise (KeyError (VStr "name"))
    | Some name =>
        if truthy name then
          let invalid := keys ∖ (optional ∪ required) in
          if decide (invalid = ∅) then
            match cfg !! "clientvalue" with
            | None => Ok tt
            | Some (VStr clientvalue) =>
                subbed <- sub_value (fun _ => Ok "") clientvalue ;;
                match search_token subbed with
                | Some m => Raise (Exception (TemplateParameterNotFound m))
                | None => Ok tt
                end
            | Some _ => Raise TypeError
            end
          else Raise (Exception (InvalidColumnKeys invalid))
        else Raise (Exception EmptyName)
    end
  else Raise (Exception (MissingRequiredKeys missing)).

(** [get_column_config(self, cfg)] with [self.defaults] passed in. *)
Definition get_column_config (defaults cfg : gmap string pyval)
  : result (gmap string pyval) :=
  _ <- validate_column_config cfg ;;
  Ok (cfg ∪ defaults).

Record t : Type := Build {
  defaults : gmap string pyval;
  column_cfgs : list (gmap string pyval)
}.

(** [__init__(self, default_cfg, column_cfgs)] *)
Definition init (default_cfg : option (gmap string pyval))
    (cfgs : list (gmap string pyval)) : result t :=
  d <- get_default_cfg default_cfg ;;
  cs <- comprehension (get_column_config d) cfgs ;;
  Ok (Build d cs).

End BulkAnnotationConfiguration.

(** ** KeyValueListPassThrough *)

Module KeyValueListPassThrough.

Record t : Type := Build { headers : list string }.

(** [__init__(self, headers, default_cfg=None, column_cfgs=None)] *)
Definition init (headers : list string)
    (default_cfg : option (gmap string pyval))
    (column_cfgs : option (list (gmap string pyval))) : t :=
  Build headers.

(** The body of the loop of [transform_gen] for one row: the assertion,
    then the value that is yielded. Python 2's [zip] returns a list as
    long as the shorter argument, as [zip] on lists does here. *)
Definition transform_row (self : t) (rowvals : list string)
  : result (list (string * string)) :=
  if decide (length rowvals = length (headers self))
  then Ok (zip (headers self) rowvals)
  else Raise AssertionError.

(** How a generator run to exhaustion ends. *)
Inductive gen_end : Type :=
| StopIteration
| Raised (e : exn).

(** [transform_gen(self, values)] consumed to its end: the rows yielded,
    in order, and how the iteration ended. *)
Fixpoint transform_gen (self : t) (values : list (list string))
  : list (list (string * string)) * gen_end :=
  match values with
  | [] => ([], StopIteration)
  | rowvals :: values' =>
      match transform_row self rowvals with
      | Ok kvs =>
          let '(yielded, e) := transform_gen self values' in
          (kvs :: yielded, e)
      | Raise e => ([], Raised e)
      end
  end.

End KeyValueListPassThrough.

(** ** KeyValueListTransformer *)

(** [enumerate(l)], counting from [i]. *)
Fixpoint enumerate_from {A : Type} (i : nat) (l : list A) : list (nat * A) :=
  match l with
  | [] => []
  | a :: l' => (i, a) :: enumerate_from (S i) l'
  end.

(** [dict(pairs)]: a later pair overwrites an earlier one with its key. *)
Definition dict {V : Type} (pairs : list (string * V)) : gmap string V :=
  foldl (fun m kv => <[kv.1 := kv.2]> m) ∅ pairs.

(** [dict((b, a) for (a, b) in enumerate(headers))] *)
Definition header_index_map (headers : list string) : gmap string nat :=
  dict (map (fun ab : nat * string => (ab.2, ab.1)) (enumerate_from 0 headers)).

Module KeyValueListTransformer.

Record t : Type := Build {
  defaults : gmap string pyval;
  column_cfgs : list (gmap string pyval);
  headerindexmap : gmap string nat;
  output_configs : list (gmap string pyval * nat)
}.

(** [d[k]] for a dictionary with string keys: a key that is not a string
    equals none of them. *)
Definition getitem {V : Type} (d : gmap string V) (k : pyval) : result V :=
  match k with
  | VStr s => match d !! s with Some v => Ok v | None => Raise (KeyError k) end
  | _ => Raise (KeyError k)
  end.

(** [cfg[k]] *)
Definition cfg_getitem (cfg : gmap string pyval) (k : string) : result pyval :=
  match cfg !! k with Some v => Ok v | None => Raise (KeyError (VStr k)) end.

(** [__init__(self, headers, default_cfg, column_cfgs)] *)
Definition init (headers : list string)
    (default_cfg : option (gmap string pyval))
    (cfgs : list (gmap string pyval)) : result t :=
  super <- BulkAnnotationConfiguration.init default_cfg cfgs ;;
  let headerindexmap := header_index_map headers in
  output_configs <- comprehension
    (fun cfg =>
       name <- cfg_getitem cfg "name" ;;
       i <- getitem headerindexmap name ;;
       Ok (cfg, i))
    (BulkAnnotationConfiguration.column_cfgs super) ;;
  Ok (Build (BulkAnnotationConfiguration.defaults super)
            (BulkAnnotationConfiguration.column_cfgs super)
            headerindexmap output_configs).

Section Transform.

(** [re._subx]: the compiled form of a replacement string that
    contains a backslash, a function from the matched text to its
    replacement. It belongs to Python's [re] module; what it does with
    escapes and group references is left open here. *)
Variable subx : string -> result (string -> result string).

(** [re.sub("\{\{\s*value\s*\}\}", repl, string)]: the replacement is
    compiled before the string is looked at. *)
Definition re_sub_value (repl : string) (target : pyval) : result string :=
  filter <- (if literal_template repl
             then Ok (fun _ : string => Ok repl)
             else subx repl) ;;
  match target with
  | VStr s => sub_value filter s
  | _ => Raise TypeError
  end.

(** The local function [valuesub(v, cv)]. *)
Definition valuesub (v : string) (cv : pyval) : result string :=
  re_sub_value v cv.

(** The key computed by the first part of [transform1]. *)
Definition transform1_key (cfg : gmap string pyval) : result pyval :=
  key <- cfg_getitem cfg "name" ;;
  let key := match cfg !! "clientname" with
             | Some clientname => clientname
             | None => key
             end in
  let key := match cfg !! "visible" with
             | Some visible =>
                 if truthy visible then key
                 else VStr ("__" +:+ format_s key)
             | None => key
             end in
  Ok key.

(** [value.split(sep)] *)
Definition str_split (value : string) (sep : pyval) : result (list string) :=
  match sep with
  | VStr s => Ok (split s value)
  | _ => Raise TypeError
  end.

(** [transform1(self, value, cfg)] *)
Definition transform1 (value : string) (cfg : gmap string pyval)
  : result (pyval * list string) :=
  key <- transform1_key cfg ;;
  values <- match cfg !! "split" with
            | Some sp =>
                if truthy sp
                then pieces <- str_split value sp ;; Ok (map strip pieces)
                else Ok [value]
            | None => Ok [value]
            end ;;
  values <- match cfg !! "clientvalue" with
            | Some cv => comprehension (fun v => valuesub v cv) values
            | None => Ok values
            end ;;
  Ok (key, values).

(** [rowvalues[i]] *)
Definition row_getitem (rowvalues : list string) (i : nat) : result string :=
  match rowvalues !! i with
  | Some v => Ok v
  | None => Raise IndexError
  end.

(** [transform(self, rowvalues)] *)
Definition transform (self : t) (rowvalues : list string)
  : result (list (pyval * list string)) :=
  if decide (length rowvalues = size (headerindexmap self)) then
    comprehension
      (fun ci : gmap string pyval * nat =>
         v <- row_getitem rowvalues ci.2 ;;
         transform1 v ci.1)
      (output_configs self)
  else Raise AssertionError.

End Transform.

End KeyValueListTransformer.

(** ** print_kvs *)

(** [s.rjust(width)]: what a [%10s] conversion does to its argument. *)
Definition rjust (width : nat) (s : string) : string :=
  string_of_list_ascii (replicate (width - String.length s) " "%char) +:+ s.

(** ["% 2d % 10s : %s" % (n, k, v)] for a row number [n], which is never
    negative: the space flag puts one blank before the digits, which fills
    the width of two; the key is right-justified in ten columns. *)
Definition format_line (n : nat) (k : pyval) (v : string) : string :=
  " " +:+ NilZero.string_of_uint (Nat.to_uint n) +:+ " "
  +:+ rjust 10 (format_s k) +:+ " : " +:+ v.

(** The lines the two inner loops of [print_kvs] print for one transformed
    row. [transform1] always returns a list of values, so the test
    [isinstance(vs, list)] holds. *)
Definition row_lines (n : nat) (transformed : list (pyval * list string))
  : list string :=
  flat_map (fun kvs : pyval * list string => map (format_line n kvs.1) kvs.2)
    transformed.

(** The loop over the rows of [print_kvs], [n] being the number of the
    first row: the lines printed, and the exception that ended the loop
    if one did. *)
Fixpoint print_rows (subx : string -> result (string -> result string))
    (tr : KeyValueListTransformer.t) (n : nat) (values : list (list string))
  : list string * option exn :=
  match values with
  | [] => ([], None)
  | row :: values' =>
      match KeyValueListTransformer.transform subx tr row with
      | Ok transformed =>
          let '(printed, e) := print_rows subx tr (S n) values' in
          ((row_lines n transformed ++ printed)%list, e)
      | Raise e => ([], Some e)
      end
  end.

(** [print_kvs(headers, values, default_cfg, column_cfgs)]: what is written
    to standard output, line by line, and the exception raised, if any. *)
Definition print_kvs (subx : string -> result (string -> result string))
    (headers : list string) (values : list (list string))
    (default_cfg : option (gmap string pyval))
    (column_cfgs : list (gmap string pyval)) : list string * option exn :=
  match KeyValueListTransformer.init headers default_cfg column_cfgs with
  | Ok tr => print_rows subx tr 0 values
  | Raise e => ([], Some e)
  end.

(** * Vocabulary of the properties *)

Import BulkAnnotationConfiguration.
Import KeyValueListTransformer.

(** The two patterns are sequences of literals and of starred character
    classes. *)
Inductive item : Type :=
| Lit (l : string)
| Many (p : ascii → bool).

Fixpoint all_chars (p : ascii → bool) (s : string) : bool :=
  match s with
  | String c s' => p c && all_chars p s'
  | EmptyString => true
  end.

(** The strings a pattern matches entirely. *)
Fixpoint matches (pat : list item) (m : string) : Prop :=
  match pat with
  | [] => m = ""
  | Lit l :: pat' => ∃ m', m = l +:+ m' ∧ matches pat' m'
  | Many p :: pat' =>
      ∃ run m', m = run +:+ m' ∧ all_chars p run = true ∧ matches pat' m'
  end.

(** [\{\{\s*value\s*\}\}] *)
Definition value_pattern : list item :=
  [Lit "{{"; Many is_space; Lit "value"; Many is_space; Lit "}}"].

(** [\{\{[\s\w]*}\}] *)
Definition token_pattern : list item :=
  [Lit "{{"; Many (fun c => is_space c || is_word c); Lit "}}"].

(** The six options a default configuration may set. *)
Definition recognized : gset string :=
  {[ "clientvalue"; "includeclient"; "include"; "split"; "type"; "visible" ]}.

(** The keys a column configuration may hold. *)
Definition allowed : gset string :=
  {[ "name"; "clientname"; "clientvalue"; "includeclient"; "position";
     "include"; "split"; "type"; "visible" ]}.

(** The template check on a [clientvalue] that is a string. *)
Definition check_template (clientvalue : string) : result unit :=
  subbed <- sub_value (fun _ => Ok "") clientvalue ;;
  match search_token subbed with
  | Some m => Raise (Exception (TemplateParameterNotFound m))
  | None => Ok tt
  end.

(** A [clientvalue], when there is one, is a string that keeps no
    [{{ ... }}]-shaped token once its [{{ value }}] placeholders are gone. *)
Definition well_formed_clientvalue (cfg : gmap string pyval) : Prop :=
  match cfg !! "clientvalue" with
  | None => True
  | Some (VStr clientvalue) =>
      ∃ subbed, sub_value (fun _ => Ok "") clientvalue = Ok subbed
                ∧ search_token subbed = None
  | Some _ => False
  end.

(** What removing every placeholder means: scanning from the left, each
    match of the placeholder pattern is dropped and the scan goes on behind
    it; every other character is kept. *)
Inductive stripped : string → string → Prop :=
| stripped_end : stripped "" ""
| stripped_match s n out :
    match_value s = Some n →
    stripped (drop_chars n s) out →
    stripped s out
| stripped_keep c s out :
    match_value (String c s) = None →
    stripped s out →
    stripped (String c s) (String c out).

(** The reading "exactly one occurrence": only the leftmost match is
    dropped, as [re.sub(..., count=1)] would do. *)
Fixpoint strip_one (s : string) : string :=
  match match_value s with
  | Some n => drop_chars n s
  | None =>
      match s with
      | String c s' => String c (strip_one s')
      | EmptyString => EmptyString
      end
  end.

(** The number of distinct strings in a list. *)
Definition distinct (l : list string) : nat := length (remove_dups l).

(** The header a resolved configuration is paired with. *)
Definition paired (headers : list string) (cfg : gmap string pyval) (i : nat) : Prop :=
  ∃ name, cfg !! "name" = Some (VStr name)
          ∧ header_index_map headers !! name = Some i.

(** The name of a column configuration matches none of the headers. *)
Definition unmatched (headers : list string) (cfg : gmap string pyval) : Prop :=
  ∀ name, cfg !! "name" = Some (VStr name) → name ∉ headers.

(** ** For the further properties *)

(** No opening brace occurs in the string. *)
Definition brace_free (s : string) : bool :=
  all_chars (fun c => negb (Ascii.eqb c "{")) s.

(** The column configuration that only names a header. *)
Definition bare_config (header : string) : gmap string pyval :=
  {[ "name" := VStr header ]}.

(** The [split] option is one [transform1] can use: absent, falsy, or a
    separator string. *)
Definition usable_split (cfg : gmap string pyval) : Prop :=
  ∀ sp, cfg !! "split" = Some sp → truthy sp = true → ∃ sep, sp = VStr sep.

(** What the [split] step of [transform1] produces. *)
Definition split_values (value : string) (cfg : gmap string pyval)
  : result (list string) :=
  match cfg !! "split" with
  | Some sp =>
      if truthy sp
      then pieces <- str_split value sp ;; Ok (map strip pieces)
      else Ok [value]
  | None => Ok [value]
  end.

(** The name of the column configuration is one of the headers. *)
Definition matched (headers : list string) (cfg : gmap string pyval) : Prop :=
  ∃ name, cfg !! "name" = Some (VStr name) ∧ name ∈ headers.

(** The string begins with a whitespace character. *)
Definition starts_with_space (s : string) : bool :=
  match s with
  | String c _ => is_space c
  | EmptyString => false
  end.

(** The string ends with a whitespace character. *)
Fixpoint ends_with_space (s : string) : bool :=
  match s with
  | EmptyString => false
  | String c EmptyString => is_space c
  | String _ s' => ends_with_space s'
  end.

(** * Properties *)

(** ** Sanity checks of the string functions *)

Example split_comma : split "," "a, b ,c" = ["a"; " b "; "c"].
Proof. reflexivity. Qed.

Example split_long_separator : split ";;" "a;;;b;;" = ["a"; ";b"; ""].
Proof. reflexivity. Qed.

Example split_no_separator : split ";" "" = [""] ∧ split ";" "ab" = ["ab"].
Proof. split; reflexivity. Qed.

Example strip_both_ends : strip "  a b  " = "a b" ∧ strip "   " = "".
Proof. split; reflexivity. Qed.

Example match_value_spaces :
  match_value "{{  value }}x" = Some 12%nat ∧ match_value "{{ val ue }}" = None.
Proof. split; reflexivity. Qed.

Example search_token_leftmost :
  search_token "ab{{ x 1_}}{{y}}" = Some "{{ x 1_}}" ∧ search_token "{{a-b}}" = None.
Proof. split; reflexivity. Qed.

Example sub_value_every_match :
  sub_value (fun _ => Ok "Z") "a{{value}}b{{ value }}{{value }" = Ok "aZbZ{{value }".
Proof. reflexivity. Qed.

Example format_s_int : format_s (VInt 0) = "0" ∧ format_s (VInt (-12)) = "-12".
Proof. split; reflexivity. Qed.

(** ** What the two matchers recognise *)

Lemma append_cons (c : ascii) (s r : string) :
  String c s +:+ r = String c (s +:+ r).
Proof. reflexivity. Qed.

Lemma append_nil_l (r : string) : "" +:+ r = r.
Proof. reflexivity. Qed.

Lemma append_assoc (a b c : string) : (a +:+ b) +:+ c = a +:+ (b +:+ c).
Proof.
  induction a as [|x a IH]; [done|]. rewrite !append_cons. by rewrite IH.
Qed.

Lemma length_append (a b : string) :
  String.length (a +:+ b) = (String.length a + String.length b)%nat.
Proof.
  induction a as [|x a IH]; [done|]. rewrite append_cons. simpl. by rewrite IH.
Qed.

Lemma strip_prefix_Some (l s r : string) :
  strip_prefix l s = Some r ↔ s = l +:+ r.
Proof.
  revert s. induction l as [|a l IH]; intros s.
  - change (Some s = Some r ↔ s = r). split; congruence.
  - destruct s as [|b s].
    + change (None = Some r ↔ "" = String a (l +:+ r)). split; discriminate.
    + change ((if Ascii.eqb a b then strip_prefix l s else None) = Some r
              ↔ String b s = String a (l +:+ r)).
      destruct (Ascii.eqb_spec a b) as [->|Hne].
      * rewrite IH. split; [by intros ->|by intros [= ->]].
      * split; [done|]. intros [= -> _]. done.
Qed.

(** [span] takes the longest run of the class. *)
Lemma span_spec (p : ascii → bool) (s : string) :
  ∃ run, s = run +:+ (span p s).2
    ∧ all_chars p run = true
    ∧ String.length run = (span p s).1
    ∧ match (span p s).2 with String c _ => p c = false | EmptyString => True end.
Proof.
  induction s as [|c s (run & Hs & Hall & Hlen & Hnext)]; simpl.
  - by exists "".
  - destruct (p c) eqn:Hc.
    + destruct (span p s) as [n r]. simpl in *. exists (String c run).
      rewrite append_cons, <- Hs. simpl. rewrite Hc, Hall. auto.
    + exists "". simpl. by rewrite Hc.
Qed.

Lemma span_append (p : ascii → bool) (run r : string) :
  all_chars p run = true →
  match r with String c _ => p c = false | EmptyString => True end →
  span p (run +:+ r) = (String.length run, r).
Proof.
  intros Hall Hnext. induction run as [|c run IH].
  - rewrite append_nil_l. destruct r as [|c r]; simpl; [done|]. by rewrite Hnext.
  - simpl in Hall. apply andb_true_iff in Hall as [Hc Hall].
    rewrite append_cons. simpl. rewrite Hc, (IH Hall). done.
Qed.

(** [match_value] finds the one prefix that the placeholder pattern
    matches, if there is one. *)
Lemma match_value_spec (s : string) (n : nat) :
  match_value s = Some n ↔
    ∃ m rest, s = m +:+ rest ∧ matches value_pattern m ∧ String.length m = n.
Proof.
  unfold match_value. split.
  - destruct (strip_prefix "{{" s) as [s1|] eqn:H1; simpl; [|done].
    apply strip_prefix_Some in H1.
    destruct (span_spec is_space s1) as (run1 & Hs1 & Hall1 & Hlen1 & _).
    destruct (span is_space s1) as [n1 s2]. simpl in *.
    destruct (strip_prefix "value" s2) as [s3|] eqn:H2; simpl; [|done].
    apply strip_prefix_Some in H2.
    destruct (span_spec is_space s3) as (run2 & Hs3 & Hall2 & Hlen2 & _).
    destruct (span is_space s3) as [n2 s4]. simpl in *.
    destruct (strip_prefix "}}" s4) as [s5|] eqn:H3; simpl; [|done].
    apply strip_prefix_Some in H3. intros [= <-].
    exists ("{{" +:+ run1 +:+ "value" +:+ run2 +:+ "}}"), s5. split; [|split].
    + rewrite H1, Hs1, H2, Hs3, H3. by rewrite !append_assoc.
    + exists (run1 +:+ "value" +:+ run2 +:+ "}}"). split; [done|].
      exists run1, ("value" +:+ run2 +:+ "}}"). split; [done|]. split; [done|].
      exists (run2 +:+ "}}"). split; [done|].
      exists run2, "}}". split; [done|]. split; [done|].
      exists "". split; [done|]. done.
    + rewrite !length_append. simpl. lia.
  - intros (m & rest & -> & Hm & <-).
    destruct Hm as (m1 & -> & run1 & m2 & -> & Hall1 & m3 & -> & run2 & m4 & ->
                    & Hall2 & m5 & -> & ->).
    rewrite !append_assoc.
    rewrite (proj2 (strip_prefix_Some "{{" _ _) eq_refl). simpl.
    rewrite span_append; [|done|done].
    rewrite (proj2 (strip_prefix_Some "value" _ _) eq_refl). simpl.
    rewrite span_append; [|done|done].
    rewrite (proj2 (strip_prefix_Some "}}" _ _) eq_refl). simpl.
    f_equal. rewrite !length_append. simpl. lia.
Qed.

(** [match_token] finds the one prefix that the token pattern matches, if
    there is one. *)
Lemma match_token_spec (s : string) (n : nat) :
  match_token s = Some n ↔
    ∃ m rest, s = m +:+ rest ∧ matches token_pattern m ∧ String.length m = n.
Proof.
  unfold match_token. split.
  - destruct (strip_prefix "{{" s) as [s1|] eqn:H1; simpl; [|done].
    apply strip_prefix_Some in H1.
    destruct (span_spec (fun c => is_space c || is_word c) s1)
      as (run & Hs1 & Hall & Hlen & _).
    destruct (span _ s1) as [n1 s2]. simpl in *.
    destruct (strip_prefix "}}" s2) as [s3|] eqn:H2; simpl; [|done].
    apply strip_prefix_Some in H2. intros [= <-].
    exists ("{{" +:+ run +:+ "}}"), s3. split; [|split].
    + rewrite H1, Hs1, H2. by rewrite !append_assoc.
    + exists (run +:+ "}}"). split; [done|].
      exists run, "}}". split; [done|]. split; [done|].
      exists "". split; [done|]. done.
    + rewrite !length_append. simpl. lia.
  - intros (m & rest & -> & Hm & <-).
    destruct Hm as (m1 & -> & run & m2 & -> & Hall & m3 & -> & ->).
    rewrite !append_assoc.
    rewrite (proj2 (strip_prefix_Some "{{" _ _) eq_refl). simpl.
    rewrite span_append; [|done|done].
    rewrite (proj2 (strip_prefix_Some "}}" _ _) eq_refl). simpl.
    f_equal. rewrite !length_append. simpl. lia.
Qed.

Lemma substring_append (m rest : string) :
  substring 0 (String.length m) (m +:+ rest) = m.
Proof.
  induction m as [|c m IH].
  - simpl. by destruct rest.
  - rewrite append_cons. simpl. by rewrite IH.
Qed.

Lemma search_token_cons (c : ascii) (s : string) :
  search_token (String c s) =
    match match_token (String c s) with
    | Some n => Some (substring 0 n (String c s))
    | None => search_token s
    end.
Proof. reflexivity. Qed.

(** [search_token] returns a substring that the token pattern matches. *)
Lemma search_token_Some (s tok : string) :
  search_token s = Some tok →
  ∃ pre post, s = pre +:+ tok +:+ post ∧ matches token_pattern tok.
Proof.
  induction s as [|c s IH]; [done|]. rewrite search_token_cons.
  - destruct (match_token (String c s)) as [n|] eqn:Hm.
    + apply match_token_spec in Hm as (m & rest & Hs & Hm & <-).
      rewrite Hs, substring_append. intros Heq.
      assert (tok = m) as -> by congruence. by exists "", rest.
    + intros (pre & post & -> & Htok)%IH. by exists (String c pre), post.
Qed.

(** [search_token] finds nothing exactly when no substring is matched by
    the token pattern. *)
Lemma search_token_None (s : string) :
  search_token s = None ↔
    ∀ pre m post, s = pre +:+ m +:+ post → ¬ matches token_pattern m.
Proof.
  induction s as [|c s IH]; [|rewrite search_token_cons].
  - split; [|done]. intros _ pre m post Hs Hm.
    destruct pre; [|done]. rewrite append_nil_l in Hs.
    assert (match_token "" = Some (String.length m)) as Hmt; [|done].
    apply match_token_spec. by exists m, post.
  - destruct (match_token (String c s)) as [n|] eqn:Hm.
    + split; [done|]. intros Hno.
      apply match_token_spec in Hm as (m & rest & Hs & Hm & _).
      by destruct (Hno "" m rest).
    + rewrite IH. split.
      * intros Hno pre m post Hs Hmatch. destruct pre as [|c' pre].
        -- rewrite append_nil_l in Hs.
           assert (match_token (String c s) = Some (String.length m)) as Hmt.
           { apply match_token_spec. by exists m, post. }
           congruence.
        -- rewrite append_cons in Hs. injection Hs as -> ->.
           by apply (Hno pre m post).
      * intros Hno pre m post ->. by apply (Hno (String c pre) m post).
Qed.

Lemma dom_default_defaults : dom default_defaults = recognized.
Proof. unfold default_defaults, recognized. set_solver. Qed.

Lemma raw_default_cfg (cfg : option (gmap string pyval)) :
  match cfg with
  | Some c => if decide (c = ∅) then ∅ else c
  | None => ∅
  end = default ∅ cfg.
Proof. destruct cfg as [c|]; simpl; [case_decide; congruence | done]. Qed.

Lemma get_default_cfg_unfold (cfg : option (gmap string pyval)) :
  get_default_cfg cfg =
    if decide (dom (default ∅ cfg) ∖ recognized = ∅)
    then Ok (default ∅ cfg ∪ default_defaults)
    else Raise (Exception (InvalidDefaultKeys (dom (default ∅ cfg) ∖ recognized))).
Proof.
  unfold get_default_cfg. rewrite raw_default_cfg, dom_default_defaults. done.
Qed.

(** C3. A raw default configuration (absent, empty or not) whose keys are
    all among the six recognized options resolves to a mapping whose keys are
    exactly the six, holding the caller's value wherever the caller gave one
    and the hard-coded default elsewhere; a raw configuration with any other
    key raises the configuration exception, which names the offending keys. *)
Theorem get_default_cfg_resolves (cfg : option (gmap string pyval)) :
  (dom (default ∅ cfg) ⊆ recognized →
     ∃ d, get_default_cfg cfg = Ok d
          ∧ dom d = recognized
          ∧ (∀ k v, default ∅ cfg !! k = Some v → d !! k = Some v)
          ∧ (∀ k, default ∅ cfg !! k = None → d !! k = default_defaults !! k))
  ∧ ((∃ k, k ∈ dom (default ∅ cfg) ∧ k ∉ recognized) →
     config_error (get_default_cfg cfg)
     ∧ ∃ invalid, get_default_cfg cfg = Raise (Exception (InvalidDefaultKeys invalid))
         ∧ ∀ k, k ∈ invalid ↔ k ∈ dom (default ∅ cfg) ∧ k ∉ recognized).
Proof.
  rewrite get_default_cfg_unfold. split.
  - intros Hsub. rewrite decide_True by set_solver.
    eexists; split; [reflexivity|]. split; [|split].
    + rewrite dom_union_L, dom_default_defaults. set_solver.
    + intros k v Hk. by apply lookup_union_Some_l.
    + intros k Hk. by apply lookup_union_r.
  - intros (k & Hin & Hout). rewrite decide_False by set_solver.
    split; [exact I|]. eexists; split; [reflexivity|].
    intros k'. apply elem_of_difference.
Qed.

(** An override of [split] is kept next to the hard-coded [visible]; a
    [name] key among the defaults is refused. *)
Lemma get_default_cfg_resolves_witness :
  (∃ d, get_default_cfg (Some {[ "split" := VStr ";" ]}) = Ok d
        ∧ dom d = recognized
        ∧ d !! "split" = Some (VStr ";")
        ∧ d !! "visible" = Some (VBool true))
  ∧ config_error (get_default_cfg (Some {[ "name" := VStr "x" ]})).
Proof.
  split.
  - destruct (proj1 (get_default_cfg_resolves (Some {[ "split" := VStr ";" ]})))
      as (d & Hd & Hdom & Hover & Hbase).
    + compute_done.
    + exists d. split; [exact Hd|]. split; [exact Hdom|]. split.
      * apply Hover. reflexivity.
      * rewrite Hbase; reflexivity.
  - apply (proj2 (get_default_cfg_resolves (Some {[ "name" := VStr "x" ]}))).
    exists "name". split; compute_done.
Defined.

Lemma optional_union_required : optional ∪ required = allowed.
Proof. unfold optional, required, allowed. set_solver. Qed.

(** Removing placeholders with the empty replacement cannot fail. *)
Lemma sub_value_go_total (r : string) (s : string) (skip : nat) :
  ∃ out, sub_value_go (fun _ => Ok r) skip s = Ok out.
Proof.
  revert skip. induction s as [|c s IH]; intros skip; simpl; [eauto|].
  destruct skip as [|k]; [|apply IH].
  destruct (match_value (String c s)) as [n|].
  - destruct (IH (n - 1)%nat) as [out ->]. simpl. eauto.
  - destruct (IH 0%nat) as [out ->]. simpl. eauto.
Qed.

Lemma validate_column_config_unfold (cfg : gmap string pyval) :
  validate_column_config cfg =
    match cfg !! "name" with
    | None => Raise (Exception (MissingRequiredKeys {[ "name" ]}))
    | Some name =>
        if truthy name then
          if decide (dom cfg ⊆ allowed) then
            match cfg !! "clientvalue" with
            | None => Ok tt
            | Some (VStr clientvalue) => check_template clientvalue
            | Some _ => Raise TypeError
            end
          else Raise (Exception (InvalidColumnKeys (dom cfg ∖ allowed)))
        else Raise (Exception EmptyName)
    end.
Proof.
  unfold validate_column_config. rewrite optional_union_required.
  destruct (cfg !! "name") as [name|] eqn:Hname.
  - assert ("name" ∈ dom cfg) by (apply elem_of_dom; eauto).
    rewrite decide_True by (unfold required; set_solver).
    destruct (truthy name); [|done].
    destruct (decide (dom cfg ⊆ allowed)) as [Hsub|Hsub].
    + rewrite decide_True by set_solver. done.
    + rewrite decide_False; [done|]. intros He. apply Hsub.
      intros k Hk. destruct (decide (k ∈ allowed)) as [|Hout]; [done|].
      assert (k ∈ dom cfg ∖ allowed) as Hd by (by apply elem_of_difference).
      rewrite He in Hd. by apply not_elem_of_empty in Hd.
  - assert ("name" ∉ dom cfg) by (by apply not_elem_of_dom).
    rewrite decide_False by (unfold required; set_solver).
    do 2 f_equal. f_equal. unfold required. set_solver.
Qed.

(** C4. Validation of a column configuration raises the configuration
    exception when [name] is missing, when [name] is present but empty
    (falsy), or when some key lies outside the nine allowed ones; it
    succeeds for a truthy [name] with any subset of the optional keys and,
    when present, a well-formed [clientvalue]. *)
Theorem validate_column_config_keys (cfg : gmap string pyval) :
  (cfg !! "name" = None →
     validate_column_config cfg = Raise (Exception (MissingRequiredKeys {[ "name" ]})))
  ∧ (∀ name, cfg !! "name" = Some name → truthy name = false →
       validate_column_config cfg = Raise (Exception EmptyName))
  ∧ (cfg !! "name" = Some (VStr "") →
       validate_column_config cfg = Raise (Exception EmptyName))
  ∧ ((∃ k, k ∈ dom cfg ∧ k ∉ allowed) →
       config_error (validate_column_config cfg))
  ∧ (∀ name, cfg !! "name" = Some name → truthy name = true →
       dom cfg ⊆ allowed → well_formed_clientvalue cfg →
       validate_column_config cfg = Ok tt).
Proof.
  rewrite validate_column_config_unfold. repeat split.
  - by intros ->.
  - by intros name -> ->.
  - by intros ->.
  - intros (k & Hin & Hout).
    destruct (cfg !! "name") as [name|]; [|done].
    destruct (truthy name); [|done].
    rewrite decide_False by set_solver. done.
  - intros name -> -> Hsub Hwf. rewrite decide_True by done.
    unfold well_formed_clientvalue in Hwf.
    destruct (cfg !! "clientvalue") as [[| | |cv]|]; try done.
    destruct Hwf as (subbed & Hs & Ht). unfold check_template.
    rewrite Hs. simpl. by rewrite Ht.
Qed.

(** One accepted configuration, and one rejected for each reason. *)
Lemma validate_column_config_keys_witness :
  validate_column_config
    {[ "name" := VStr "x"; "position" := VInt 2; "clientvalue" := VStr "<{{ value }}>" ]}
  = Ok tt
  ∧ config_error (validate_column_config {[ "split" := VStr "," ]})
  ∧ config_error (validate_column_config {[ "name" := VStr "" ]})
  ∧ config_error (validate_column_config {[ "name" := VStr "x"; "colour" := VStr "red" ]}).
Proof.
  split; [|split; [|split]].
  - apply (proj2 (proj2 (proj2 (proj2 (validate_column_config_keys _)))) (VStr "x")).
    + reflexivity.
    + reflexivity.
    + compute_done.
    + exists "<>". split; reflexivity.
  - rewrite (proj1 (validate_column_config_keys _)); [exact I|reflexivity].
  - rewrite (proj1 (proj2 (proj2 (validate_column_config_keys _)))); [exact I|reflexivity].
  - apply (proj1 (proj2 (proj2 (proj2 (validate_column_config_keys _))))).
    exists "colour". split; compute_done.
Defined.

Lemma match_value_pos (s : string) (n : nat) :
  match_value s = Some n → (9 ≤ n)%nat.
Proof.
  unfold match_value. intros H.
  destruct (strip_prefix "{{" s) as [s1|]; simpl in H; [|done].
  destruct (span is_space s1) as [n1 s2].
  destruct (strip_prefix "value" s2) as [s3|]; simpl in H; [|done].
  destruct (span is_space s3) as [n2 s4].
  destruct (strip_prefix "}}" s4); simpl in H; [|done].
  injection H as <-. lia.
Qed.

Lemma sub_value_go_skip (filter : string → result string) (k : nat) (s : string) :
  sub_value_go filter k s = sub_value_go filter 0 (drop_chars k s).
Proof.
  revert k. induction s as [|c s IH]; intros [|k]; try reflexivity.
  simpl sub_value_go at 1. simpl drop_chars. apply IH.
Qed.

Lemma sub_value_go_stripped (s : string) :
  ∀ out, sub_value_go (fun _ => Ok "") 0 s = Ok out → stripped s out.
Proof.
  remember (String.length s) as len eqn:Hlen.
  revert s Hlen. induction len as [len IH] using lt_wf_ind.
  intros [|c s] Hlen out; simpl.
  - intros [= <-]. constructor.
  - destruct (match_value (String c s)) as [n|] eqn:Hm.
    + pose proof (match_value_pos _ _ Hm) as Hn.
      simpl. rewrite sub_value_go_skip.
      destruct (sub_value_go _ 0 (drop_chars (n - 1) s)) as [rest|] eqn:Hr;
        simpl; [|done].
      intros [= <-]. apply stripped_match with n; [done|].
      destruct n as [|n]; [lia|]. simpl.
      replace (S n - 1)%nat with n in Hr by lia.
      eapply IH; [| reflexivity | done].
      subst len. simpl. clear. revert s.
      induction n as [|n IHn]; intros [|c s]; simpl; try lia.
      specialize (IHn s). lia.
    + destruct (sub_value_go _ 0 s) as [rest|] eqn:Hr; simpl; [|done].
      intros [= <-]. apply stripped_keep; [done|].
      eapply IH; [| reflexivity | done]. subst len. simpl. lia.
Qed.

Lemma match_value_empty : match_value "" = None.
Proof. reflexivity. Qed.

(** The stripped string is determined by the string. *)
Lemma stripped_unique (s out1 out2 : string) :
  stripped s out1 → stripped s out2 → out1 = out2.
Proof.
  intros H1. revert out2.
  induction H1 as [|s n out Hm _ IH|c s out Hm _ IH]; intros out2 H2.
  - inversion H2 as [|s' n' out' Hm'|]; subst; [done|].
    by rewrite match_value_empty in Hm'.
  - inversion H2 as [|s' n' out' Hm' Hs'|c' s' out' Hm' Hs']; subst.
    + by rewrite match_value_empty in Hm.
    + rewrite Hm in Hm'. injection Hm' as <-. by apply IH.
    + congruence.
  - inversion H2 as [|s' n' out' Hm' Hs'|c' s' out' Hm' Hs']; subst.
    + congruence.
    + f_equal. by apply IH.
Qed.

Lemma check_template_stripped (clientvalue : string) :
  ∃ subbed, stripped clientvalue subbed
    ∧ check_template clientvalue =
        match search_token subbed with
        | Some m => Raise (Exception (TemplateParameterNotFound m))
        | None => Ok tt
        end.
Proof.
  unfold check_template, sub_value.
  destruct (sub_value_go_total "" clientvalue 0) as [out Hout].
  exists out. split; [by apply sub_value_go_stripped|]. by rewrite Hout.
Qed.

(** A token is found exactly when some substring has the token shape. *)
Lemma search_token_found (s : string) :
  search_token s ≠ None ↔
    ∃ pre m post, s = pre +:+ m +:+ post ∧ matches token_pattern m.
Proof.
  split.
  - destruct (search_token s) as [tok|] eqn:Hs; [|done]. intros _.
    apply search_token_Some in Hs as (pre & post & -> & Htok). eauto.
  - intros (pre & m & post & Hs & Hm) Hnone.
    rewrite search_token_None in Hnone. by apply (Hnone pre m post).
Qed.

(** C1, as stated, fails: with two placeholders in [clientvalue] the
    validation succeeds, although a [{{ ... }}]-shaped token remains once
    exactly one occurrence is stripped. *)
Lemma validate_strips_one_counterexample :
  let cv := "{{ value }}{{ value }}" in
  let cfg : gmap string pyval := {[ "name" := VStr "x"; "clientvalue" := VStr cv ]} in
  ¬ (raises (validate_column_config cfg) ↔ search_token (strip_one cv) ≠ None).
Proof.
  intros cv cfg [_ H].
  assert (validate_column_config cfg = Ok tt) as Hv by (vm_compute; reflexivity).
  rewrite Hv in H. apply H. vm_compute. discriminate.
Qed.

(** C1, amended. For a column configuration that passes the checks on its
    keys and holds a string [clientvalue], validation strips every occurrence
    of the [{{ value }}] placeholder (whitespace-tolerant, leftmost first)
    and raises the configuration exception exactly when a [{{ ... }}]-shaped
    token remains in the stripped string. ["{{ value }}"] and
    ["prefix-{{ value }}-suffix"] are accepted, ["{{value}}-{{other}}"] is
    rejected. *)
Theorem validate_clientvalue_template (cfg : gmap string pyval) (name : pyval) :
  cfg !! "name" = Some name → truthy name = true → dom cfg ⊆ allowed →
  (∀ cv, cfg !! "clientvalue" = Some (VStr cv) →
     (∃ subbed, stripped cv subbed)
     ∧ ∀ subbed, stripped cv subbed →
         validate_column_config cfg =
           match search_token subbed with
           | Some m => Raise (Exception (TemplateParameterNotFound m))
           | None => Ok tt
           end
         ∧ (config_error (validate_column_config cfg) ↔
              ∃ pre m post, subbed = pre +:+ m +:+ post ∧ matches token_pattern m)
         ∧ (validate_column_config cfg = Ok tt ↔ search_token subbed = None))
  ∧ (cfg !! "clientvalue" = Some (VStr "{{ value }}") →
       validate_column_config cfg = Ok tt)
  ∧ (cfg !! "clientvalue" = Some (VStr "prefix-{{ value }}-suffix") →
       validate_column_config cfg = Ok tt)
  ∧ (cfg !! "clientvalue" = Some (VStr "{{value}}-{{other}}") →
       validate_column_config cfg =
         Raise (Exception (TemplateParameterNotFound "{{other}}"))).
Proof.
  intros Hname Htruthy Hkeys.
  rewrite validate_column_config_unfold, Hname, Htruthy, decide_True by done.
  split; [|split; [|split]]; try (intros ->; reflexivity).
  intros cv ->. destruct (check_template_stripped cv) as (subbed' & Hs' & ->).
  split; [by exists subbed'|].
  intros subbed Hs. rewrite (stripped_unique cv subbed subbed' Hs Hs').
  rewrite <- search_token_found.
  destruct (search_token subbed') as [tok|]; simpl; repeat split; try done.
Qed.

(** The identity template passes the check. *)
Lemma validate_clientvalue_template_witness :
  let cfg : gmap string pyval :=
    {[ "name" := VStr "x"; "clientvalue" := VStr "{{ value }}" ]} in
  validate_column_config cfg = Ok tt.
Proof.
  intros cfg.
  refine (proj1 (proj2 (validate_clientvalue_template cfg (VStr "x") _ _ _)) _).
  - reflexivity.
  - reflexivity.
  - compute_done.
  - reflexivity.
Defined.

(** ** List comprehensions *)

Lemma comprehension_Ok {A B : Type} (f : A → result B) (l : list A) (out : list B) :
  comprehension f l = Ok out → Forall2 (fun a b => f a = Ok b) l out.
Proof.
  revert out. induction l as [|a l IH]; intros out; simpl.
  - intros [= <-]. constructor.
  - destruct (f a) as [b|] eqn:Hb; simpl; [|done].
    destruct (comprehension f l) as [bs|]; simpl; [|done].
    intros [= <-]. constructor; auto.
Qed.

Lemma comprehension_Forall2 {A B : Type} (f : A → result B) (l : list A) (out : list B) :
  Forall2 (fun a b => f a = Ok b) l out → comprehension f l = Ok out.
Proof.
  induction 1 as [|a b l' out' Hab _ IH]; simpl; [done|]. by rewrite Hab, IH.
Qed.

Lemma comprehension_Raise {A B : Type} (f : A → result B) (l : list A) (e : exn) :
  comprehension f l = Raise e → ∃ a, a ∈ l ∧ f a = Raise e.
Proof.
  induction l as [|a l IH]; simpl; [done|].
  destruct (f a) as [b|e'] eqn:Hb; simpl.
  - destruct (comprehension f l) as [bs|e'']; simpl; [done|].
    intros [= ->]. destruct IH as (a' & Hin & Ha'); [done|].
    exists a'. split; [by right|done].
  - intros [= ->]. exists a. split; [by left|done].
Qed.

(** ** The header index map *)

Lemma enumerate_from_snoc {A : Type} (i : nat) (l : list A) (x : A) :
  enumerate_from i (l ++ [x])%list = (enumerate_from i l ++ [((i + length l)%nat, x)])%list.
Proof.
  revert i. induction l as [|a l IH]; intros i; simpl.
  - by rewrite Nat.add_0_r.
  - rewrite IH. simpl. repeat f_equal. lia.
Qed.

Lemma header_index_map_nil : header_index_map [] = ∅.
Proof. reflexivity. Qed.

Lemma header_index_map_snoc (headers : list string) (h : string) :
  header_index_map (headers ++ [h])%list = <[h := length headers]> (header_index_map headers).
Proof.
  unfold header_index_map, dict.
  by rewrite enumerate_from_snoc, map_app, foldl_app.
Qed.

(** A header is mapped to the index of its last occurrence. *)
Lemma header_index_map_lookup (headers : list string) (h : string) (i : nat) :
  header_index_map headers !! h = Some i ↔
    headers !! i = Some h ∧ ∀ j, (i < j)%nat → headers !! j ≠ Some h.
Proof.
  revert i. induction headers as [|x headers IH] using rev_ind; intros i.
  - rewrite header_index_map_nil, lookup_empty. split; [done|].
    by intros [? _].
  - rewrite header_index_map_snoc, lookup_insert.
    destruct (decide (x = h)) as [->|Hne].
    + split.
      * intros [= <-]. split; [by rewrite list_lookup_middle|].
        intros j Hj. rewrite lookup_ge_None_2; [done|].
        rewrite length_app. simpl. lia.
      * intros [Hi Hlast].
        destruct (decide (i = length headers)) as [->|Hi']; [done|].
        exfalso. apply (Hlast (length headers)); [|by rewrite list_lookup_middle].
        apply lookup_lt_Some in Hi. rewrite length_app in Hi. simpl in Hi. lia.
    + rewrite IH. split.
      * intros [Hi Hlast]. split; [by apply lookup_app_l_Some|].
        intros j Hj Hl. apply lookup_app_Some in Hl as [Hl|[Hge Hl]].
        -- by apply (Hlast j).
        -- apply list_lookup_singleton_Some in Hl as [_ ?]. done.
      * intros [Hi Hlast].
        apply lookup_app_Some in Hi as [Hi|[Hge Hi]].
        -- split; [done|]. intros j Hj Hl. apply (Hlast j Hj).
           by apply lookup_app_l_Some.
        -- apply list_lookup_singleton_Some in Hi as [_ ?]. done.
Qed.

Lemma dom_header_index_map (headers : list string) :
  dom (header_index_map headers) = list_to_set headers.
Proof.
  induction headers as [|x headers IH] using rev_ind.
  - rewrite header_index_map_nil. set_solver.
  - rewrite header_index_map_snoc, dom_insert_L, IH, list_to_set_app_L.
    set_solver.
Qed.

Lemma header_index_map_is_Some (headers : list string) (h : string) :
  is_Some (header_index_map headers !! h) ↔ h ∈ headers.
Proof. rewrite <- elem_of_dom, dom_header_index_map. set_solver. Qed.

Lemma size_header_index_map (headers : list string) :
  size (header_index_map headers) = distinct headers.
Proof.
  unfold distinct.
  rewrite <- size_dom, dom_header_index_map.
  rewrite <- (size_list_to_set (C := gset string) (remove_dups headers))
    by apply NoDup_remove_dups.
  f_equal. apply set_eq. intros h.
  by rewrite !elem_of_list_to_set, elem_of_remove_dups.
Qed.

Lemma distinct_le (l : list string) : (distinct l ≤ length l)%nat.
Proof.
  unfold distinct. induction l as [|x l IH]; simpl; [done|].
  case_decide; simpl; lia.
Qed.

Lemma distinct_eq_NoDup (l : list string) : distinct l = length l ↔ NoDup l.
Proof.
  unfold distinct. induction l as [|x l IH]; simpl.
  - split; [constructor|done].
  - rewrite NoDup_cons. pose proof (distinct_le l) as Hle. unfold distinct in Hle.
    case_decide; simpl.
    + split; [lia|]. by intros [? _].
    + split.
      * intros [= Hl]. split; [done|]. by apply IH.
      * intros [_ Hnd]. f_equal. by apply IH.
Qed.

(** ** Construction of the transformer *)

Lemma Forall2_compose {A B C : Type} (P : A → B → Prop) (Q : B → C → Prop)
    (l : list A) (k : list B) (m : list C) :
  Forall2 P l k → Forall2 Q k m → Forall2 (fun a c => ∃ b, P a b ∧ Q b c) l m.
Proof.
  intros H. revert m. induction H as [|a b l' k' Hab _ IH]; intros m Hm.
  - inversion Hm. constructor.
  - inversion Hm as [|b' c k'' m' Hbc Hrest]; subst. constructor; eauto.
Qed.

Lemma configuration_init_Ok (default_cfg : option (gmap string pyval))
    (cfgs : list (gmap string pyval)) (conf : BulkAnnotationConfiguration.t) :
  BulkAnnotationConfiguration.init default_cfg cfgs = Ok conf →
  get_default_cfg default_cfg = Ok (BulkAnnotationConfiguration.defaults conf)
  ∧ Forall2 (fun c rc => validate_column_config c = Ok tt
                         ∧ rc = c ∪ BulkAnnotationConfiguration.defaults conf)
      cfgs (BulkAnnotationConfiguration.column_cfgs conf).
Proof.
  unfold BulkAnnotationConfiguration.init.
  destruct (get_default_cfg default_cfg) as [d|]; simpl; [|done].
  destruct (comprehension (get_column_config d) cfgs) as [cs|] eqn:Hcs;
    simpl; [|done].
  intros [= <-]. simpl. split; [done|].
  apply comprehension_Ok in Hcs.
  eapply Forall2_impl; [exact Hcs|]. intros c rc. simpl.
  unfold get_column_config.
  destruct (validate_column_config c) as [[]|]; simpl; [|done].
  by intros [= <-].
Qed.

Lemma transformer_init_Ok (headers : list string)
    (default_cfg : option (gmap string pyval))
    (cfgs : list (gmap string pyval)) (tr : KeyValueListTransformer.t) :
  KeyValueListTransformer.init headers default_cfg cfgs = Ok tr →
  get_default_cfg default_cfg = Ok (KeyValueListTransformer.defaults tr)
  ∧ Forall2 (fun c rc => validate_column_config c = Ok tt
                         ∧ rc = c ∪ KeyValueListTransformer.defaults tr)
      cfgs (KeyValueListTransformer.column_cfgs tr)
  ∧ KeyValueListTransformer.headerindexmap tr = header_index_map headers
  ∧ Forall2 (fun rc ci => ci.1 = rc ∧ paired headers rc ci.2)
      (KeyValueListTransformer.column_cfgs tr)
      (KeyValueListTransformer.output_configs tr).
Proof.
  unfold KeyValueListTransformer.init.
  destruct (BulkAnnotationConfiguration.init default_cfg cfgs) as [conf|] eqn:Hc;
    simpl; [|done].
  apply configuration_init_Ok in Hc as [Hd Hcs].
  destruct (comprehension _ (BulkAnnotationConfiguration.column_cfgs conf))
    as [ocs|] eqn:Hocs; simpl; [|done].
  intros [= <-]. simpl. repeat split; try done.
  apply comprehension_Ok in Hocs.
  eapply Forall2_impl; [exact Hocs|]. intros rc [rc' i]. simpl.
  unfold KeyValueListTransformer.cfg_getitem, KeyValueListTransformer.getitem, paired.
  destruct (rc !! "name") as [[| | |name]|] eqn:Hname; simpl; try done.
  destruct (header_index_map headers !! name) as [j|] eqn:Hj; simpl; [|done].
  intros [= <- <-]. eauto.
Qed.

(** A validated column configuration keeps its own [name] once the
    defaults are merged in. *)
Lemma resolved_name (c defs : gmap string pyval) :
  validate_column_config c = Ok tt → (c ∪ defs) !! "name" = c !! "name".
Proof.
  rewrite validate_column_config_unfold.
  destruct (c !! "name") as [name|] eqn:Hname; [|done].
  intros _. by apply lookup_union_Some_l.
Qed.

(** On success the column configurations and the output configurations
    correspond, position by position. *)
Lemma init_output_configs (headers : list string)
    (default_cfg : option (gmap string pyval)) (cfgs : list (gmap string pyval))
    (tr : KeyValueListTransformer.t) :
  KeyValueListTransformer.init headers default_cfg cfgs = Ok tr →
  Forall2 (fun c ci =>
             ci.1 = c ∪ KeyValueListTransformer.defaults tr
             ∧ ∃ name, c !! "name" = Some (VStr name)
                       ∧ headers !! ci.2 = Some name)
    cfgs (KeyValueListTransformer.output_configs tr).
Proof.
  intros (_ & Hcs & _ & Hocs)%transformer_init_Ok.
  eapply Forall2_impl; [exact (Forall2_compose _ _ _ _ _ Hcs Hocs)|].
  intros c [rc' i] (rc & [Hv ->] & [Heq (name & Hname & Hidx)]). simpl in *.
  split; [done|]. exists name. split.
  - by rewrite <- (resolved_name c (KeyValueListTransformer.defaults tr) Hv).
  - by apply header_index_map_lookup in Hidx as [? _].
Qed.

(** C8, as stated, fails: over headers [["A", "B"]] the column named
    ["C"] makes the construction fail with the [KeyError] of the lookup in
    the header index map, not with the exception the configuration code
    raises. *)
Lemma init_requires_matching_headers_counterexample :
  let cfgs : list (gmap string pyval) :=
    [ {[ "name" := VStr "A" ]}; {[ "name" := VStr "C" ]} ] in
  {[ "name" := VStr "C" ]} ∈ cfgs
  ∧ unmatched ["A"; "B"] {[ "name" := VStr "C" ]}
  ∧ KeyValueListTransformer.init ["A"; "B"] None cfgs = Raise (KeyError (VStr "C"))
  ∧ ¬ config_error (KeyValueListTransformer.init ["A"; "B"] None cfgs).
Proof.
  intros cfgs.
  assert (KeyValueListTransformer.init ["A"; "B"] None cfgs = Raise (KeyError (VStr "C")))
    as Hinit by (vm_compute; reflexivity).
  split; [|split; [|split]].
  - apply elem_of_cons. right. apply elem_of_cons. by left.
  - intros name Hname. vm_compute in Hname. injection Hname as <-.
    intros Hin. apply elem_of_cons in Hin as [Hin|Hin]; [discriminate|].
    apply elem_of_cons in Hin as [Hin|Hin]; [discriminate|].
    by apply elem_of_nil in Hin.
  - exact Hinit.
  - rewrite Hinit. intros [].
Qed.

(** C8, amended. Constructing the row transformer fails whenever the name
    of some column configuration matches none of the headers: with the
    exception of the configuration resolver when the defaults or a column
    configuration are invalid, and with the [KeyError] of the lookup of such
    a name in the header index map when they are all valid. When
    construction succeeds, the resolved column configurations are paired, in
    order, with the index of the header that carries their name. A result is
    either an exception or a complete transformer. *)
Theorem init_requires_matching_headers (headers : list string)
    (default_cfg : option (gmap string pyval)) (cfgs : list (gmap string pyval)) :
  ((∃ cfg, cfg ∈ cfgs ∧ unmatched headers cfg) →
     raises (KeyValueListTransformer.init headers default_cfg cfgs))
  ∧ (∀ e, BulkAnnotationConfiguration.init default_cfg cfgs = Raise e →
     KeyValueListTransformer.init headers default_cfg cfgs = Raise e)
  ∧ ((∃ cfg, cfg ∈ cfgs ∧ unmatched headers cfg) →
     (∃ defs, get_default_cfg default_cfg = Ok defs) →
     Forall (fun c => validate_column_config c = Ok tt) cfgs →
     ∃ cfg name, cfg ∈ cfgs ∧ cfg !! "name" = Some name ∧ unmatched headers cfg
       ∧ KeyValueListTransformer.init headers default_cfg cfgs = Raise (KeyError name))
  ∧ (∀ tr, KeyValueListTransformer.init headers default_cfg cfgs = Ok tr →
     Forall2 (fun c ci =>
                ci.1 = c ∪ KeyValueListTransformer.defaults tr
                ∧ ∃ name, c !! "name" = Some (VStr name)
                          ∧ headers !! ci.2 = Some name)
       cfgs (KeyValueListTransformer.output_configs tr)).
Proof.
  pose proof (init_output_configs headers default_cfg cfgs) as Hok.
  assert ((∃ cfg, cfg ∈ cfgs ∧ unmatched headers cfg) →
     raises (KeyValueListTransformer.init headers default_cfg cfgs)) as Hraises.
  { intros (cfg & Hin & Hun).
    destruct (KeyValueListTransformer.init headers default_cfg cfgs) as [tr|] eqn:Hi;
      [|exact I].
    specialize (Hok tr eq_refl).
    apply list_elem_of_lookup in Hin as [n Hn].
    destruct (Forall2_lookup_l _ _ _ _ _ Hok Hn) as (ci & _ & _ & name & Hname & Hh).
    apply (Hun name Hname). by eapply list_elem_of_lookup_2. }
  split; [done|]. split.
  { intros e He. unfold KeyValueListTransformer.init. by rewrite He. }
  split; [|done].
  intros Hex [defs Hdefs] Hvalid. specialize (Hraises Hex). clear Hok.
  unfold KeyValueListTransformer.init, BulkAnnotationConfiguration.init in *.
  rewrite Hdefs in *. simpl in *.
  assert (comprehension (get_column_config defs) cfgs = Ok (map (fun c => c ∪ defs) cfgs))
    as Hcs.
  { apply comprehension_Forall2. clear Hex Hraises.
    induction Hvalid as [|c cfgs' Hc _ IH]; simpl; [constructor|].
    constructor; [|done]. unfold get_column_config. by rewrite Hc. }
  rewrite Hcs in *. simpl in *.
  destruct (comprehension _ (map (fun c => c ∪ defs) cfgs)) as [ocs|e] eqn:Hocs;
    simpl in *; [done|].
  apply comprehension_Raise in Hocs as (rc & Hin & Hrc).
  apply list_elem_of_fmap in Hin as (c & -> & Hin).
  rewrite Forall_forall in Hvalid. specialize (Hvalid c Hin).
  unfold KeyValueListTransformer.cfg_getitem in Hrc.
  rewrite (resolved_name c defs Hvalid) in Hrc.
  destruct (c !! "name") as [name|] eqn:Hname; simpl in Hrc.
  - exists c, name. split; [done|]. split; [done|].
    unfold KeyValueListTransformer.getitem in Hrc.
    destruct name as [| | |nm]; simpl in Hrc.
    1-3: injection Hrc as <-; split; [intros nm' Hnm'; congruence|done].
    destruct (header_index_map headers !! nm) as [j|] eqn:Hj; simpl in Hrc; [done|].
    injection Hrc as <-. split; [|done].
    intros nm' Hnm' Hin'. rewrite Hname in Hnm'. injection Hnm' as <-.
    apply header_index_map_is_Some in Hin'.
    rewrite Hj in Hin'. by destruct Hin'.
  - rewrite validate_column_config_unfold, Hname in Hvalid. done.
Qed.

(** A second column named ["C"] cannot be built over headers [["A", "B"]]. *)
Lemma init_requires_matching_headers_witness :
  let cfgs : list (gmap string pyval) := [ {[ "name" := VStr "A" ]}; {[ "name" := VStr "C" ]} ] in
  raises (KeyValueListTransformer.init ["A"; "B"] None cfgs)
  ∧ ∃ cfg name, cfg ∈ cfgs ∧ cfg !! "name" = Some name ∧ unmatched ["A"; "B"] cfg
      ∧ KeyValueListTransformer.init ["A"; "B"] None cfgs = Raise (KeyError name).
Proof.
  intros cfgs.
  assert (∃ cfg, cfg ∈ cfgs ∧ unmatched ["A"; "B"] cfg) as Hex.
  { exists {[ "name" := VStr "C" ]}. split.
    - apply elem_of_cons. right. apply elem_of_cons. by left.
    - intros name Hname. vm_compute in Hname. injection Hname as <-.
      intros Hin. apply elem_of_cons in Hin as [Hin|Hin]; [discriminate|].
      apply elem_of_cons in Hin as [Hin|Hin]; [discriminate|].
      by apply elem_of_nil in Hin. }
  split.
  - exact (proj1 (init_requires_matching_headers ["A"; "B"] None cfgs) Hex).
  - apply (proj1 (proj2 (proj2 (init_requires_matching_headers ["A"; "B"] None cfgs))) Hex).
    + eexists. vm_compute. reflexivity.
    + repeat constructor.
Defined.

(** ** The per-value transform *)

Lemma append_empty_r (s : string) : s +:+ "" = s.
Proof.
  induction s as [|c s IH]; [done|].
  change (String c (s +:+ "") = String c s). by rewrite IH.
Qed.

(** Pieces of a string without a backslash have none either. *)
Lemma literal_template_split_go (sep : string) (s : string) :
  literal_template s = true →
  ∀ skip, Forall (fun piece => literal_template piece = true) (split_go sep skip s).
Proof.
  induction s as [|c s IH]; intros Hs skip; simpl.
  - by repeat constructor.
  - simpl in Hs. apply andb_true_iff in Hs as [Hc Hs].
    destruct skip as [|k]; [|by apply IH].
    destruct (strip_prefix sep (String c s)).
    + constructor; [done|]. by apply IH.
    + specialize (IH Hs 0%nat). destruct (split_go sep 0 s) as [|piece pieces].
      * repeat constructor. simpl. by rewrite Hc.
      * inversion IH; subst. constructor; [|done]. simpl. by rewrite Hc.
Qed.

Lemma literal_template_lstrip (s : string) :
  literal_template s = true → literal_template (lstrip s) = true.
Proof.
  induction s as [|c s IH]; simpl; [done|].
  intros [Hc Hs]%andb_true_iff. destruct (is_space c); [by apply IH|].
  simpl. by rewrite Hc, Hs.
Qed.

Lemma literal_template_rstrip (s : string) :
  literal_template s = true → literal_template (rstrip s) = true.
Proof.
  induction s as [|c s IH]; simpl; [done|].
  intros [Hc Hs]%andb_true_iff. specialize (IH Hs).
  destruct (rstrip s) as [|c' r].
  - destruct (is_space c); simpl; [done|]. by rewrite Hc.
  - simpl in *. by rewrite Hc, IH.
Qed.

Lemma literal_template_strip (s : string) :
  literal_template s = true → literal_template (strip s) = true.
Proof. intros Hs. by apply literal_template_rstrip, literal_template_lstrip. Qed.

Section TransformOne.

Variable subx : string → result (string → result string).

(** Substituting a value without a backslash into a template that is a
    string always succeeds. *)
Lemma valuesub_literal (v cv : string) :
  literal_template v = true →
  ∃ out, valuesub subx v (VStr cv) = Ok out.
Proof.
  intros Hv. unfold valuesub, re_sub_value. rewrite Hv. simpl.
  apply sub_value_go_total.
Qed.

(** The identity template gives the value back. *)
Lemma valuesub_identity (v : string) :
  literal_template v = true →
  valuesub subx v (VStr "{{ value }}") = Ok v.
Proof.
  intros Hv. unfold valuesub, re_sub_value. rewrite Hv. simpl.
  change (Ok (v +:+ "") = Ok v). by rewrite append_empty_r.
Qed.

Lemma transform1_key_Some (cfg : gmap string pyval) (name : pyval) :
  cfg !! "name" = Some name →
  transform1_key cfg =
    Ok (let key := match cfg !! "clientname" with
                   | Some clientname => clientname
                   | None => name
                   end in
        match cfg !! "visible" with
        | Some visible =>
            if truthy visible then key else VStr ("__" +:+ format_s key)
        | None => key
        end).
Proof. intros Hname. unfold transform1_key, cfg_getitem. by rewrite Hname. Qed.

Lemma transform1_Ok_key (value : string) (cfg : gmap string pyval)
    (key : pyval) (values : list string) :
  transform1 subx value cfg = Ok (key, values) → transform1_key cfg = Ok key.
Proof.
  unfold transform1. destruct (transform1_key cfg) as [k|]; simpl; [|done].
  destruct (match cfg !! "split" with Some _ => _ | None => _ end) as [vs|];
    simpl; [|done].
  destruct (match cfg !! "clientvalue" with Some _ => _ | None => _ end) as [vs'|];
    simpl; [|done].
  by intros [= -> _].
Qed.

End TransformOne.

(** C6. The key [transform1] returns is the [name] of the configuration,
    replaced by [clientname] when that key is present, then prefixed with
    ["__"] when [visible] is present and false (falsy), whatever the value;
    computing the key needs nothing but the [name], and for a value without
    a backslash and well-typed [split] and [clientvalue] options the call
    returns. For every value, [{name: "x", visible: False}] gives the key
    ["__x"] and [{name: "x", clientname: "y"}] gives the key ["y"]. *)
Theorem transform1_key_rule (subx : string → result (string → result string))
    (value : string) (cfg : gmap string pyval) :
  (∀ key values, transform1 subx value cfg = Ok (key, values) →
     ∃ name renamed,
       cfg !! "name" = Some name
       ∧ renamed = default name (cfg !! "clientname")
       ∧ key = match cfg !! "visible" with
               | Some visible =>
                   if truthy visible then renamed
                   else VStr ("__" +:+ format_s renamed)
               | None => renamed
               end)
  ∧ (∀ name key, cfg !! "name" = Some (VStr name) →
       cfg !! "clientname" = Some (VStr key) ∨
         (cfg !! "clientname" = None ∧ key = name) →
       (cfg !! "visible" = Some (VBool false) →
          transform1_key cfg = Ok (VStr ("__" +:+ key)))
       ∧ (cfg !! "visible" = Some (VBool true) ∨ cfg !! "visible" = None →
          transform1_key cfg = Ok (VStr key)))
  ∧ (cfg !! "name" = None →
       transform1 subx value cfg = Raise (KeyError (VStr "name")))
  ∧ (∀ name, cfg !! "name" = Some name →
       literal_template value = true →
       (∀ sp, cfg !! "split" = Some sp → truthy sp = true → ∃ sep, sp = VStr sep) →
       (∀ cv, cfg !! "clientvalue" = Some cv → ∃ template, cv = VStr template) →
       ∃ key values,
         transform1_key cfg = Ok key
         ∧ transform1 subx value cfg = Ok (key, values))
  ∧ transform1 subx value {[ "name" := VStr "x"; "visible" := VBool false ]}
      = Ok (VStr "__x", [value])
  ∧ transform1 subx value {[ "name" := VStr "x"; "clientname" := VStr "y" ]}
      = Ok (VStr "y", [value]).
Proof.
  split; [|split; [|split; [|split; [|split]]]].
  - intros key values Hk%transform1_Ok_key.
    destruct (cfg !! "name") as [name|] eqn:Hname.
    + rewrite (transform1_key_Some cfg name Hname) in Hk. injection Hk as <-.
      exists name, (default name (cfg !! "clientname")).
      repeat split; try done.
    + unfold transform1_key, cfg_getitem in Hk. by rewrite Hname in Hk.
  - intros name key Hname Hcn. rewrite (transform1_key_Some cfg _ Hname).
    split.
    + intros ->. by destruct Hcn as [->|[-> ->]].
    + intros [->| ->]; by destruct Hcn as [->|[-> ->]].
  - intros Hname. unfold transform1, transform1_key, cfg_getitem.
    by rewrite Hname.
  - intros name Hname Hlit Hsplit Hcv. unfold transform1.
    rewrite (transform1_key_Some cfg name Hname). simpl.
    eexists _. 
    assert (∃ values,
      match cfg !! "split" with
      | Some sp =>
          if truthy sp
          then bind (str_split value sp) (fun pieces => Ok (map strip pieces))
          else Ok [value]
      | None => Ok [value]
      end = Ok values
      ∧ Forall (fun v => literal_template v = true) values) as (values & -> & Hvs).
    { destruct (cfg !! "split") as [sp|] eqn:Hsp; [|by eauto].
      destruct (truthy sp) eqn:Ht; [|by eauto].
      destruct (Hsplit sp eq_refl Ht) as [sep ->]. simpl.
      eexists; split; [done|]. apply Forall_fmap.
      eapply Forall_impl; [by apply literal_template_split_go|].
      intros piece. apply literal_template_strip. }
    simpl. destruct (cfg !! "clientvalue") as [cv|] eqn:Hclient.
    + destruct (Hcv cv eq_refl) as [template ->].
      assert (∃ out, comprehension (fun v => valuesub subx v (VStr template)) values
                     = Ok out) as [out ->].
      { clear -Hvs. induction Hvs as [|v values Hv _ [out IH]]; simpl; [by eauto|].
        destruct (valuesub_literal subx v template Hv) as [o ->]. simpl.
        rewrite IH. simpl. eauto. }
      simpl. eauto.
    + simpl. eauto.
  - reflexivity.
  - reflexivity.
Qed.

(** A hidden column, with neither [split] nor [clientvalue]. *)
Lemma transform1_key_rule_witness :
  let cfg : gmap string pyval := {[ "name" := VStr "x"; "visible" := VBool false ]} in
  ∃ key values, transform1_key cfg = Ok key
    ∧ transform1 (fun _ => Raise ReError) "v" cfg = Ok (key, values).
Proof.
  intros cfg.
  refine (proj1 (proj2 (proj2 (proj2
    (transform1_key_rule (fun _ => Raise ReError) "v" cfg)))) (VStr "x") _ _ _ _).
  - reflexivity.
  - reflexivity.
  - intros sp Hsp. vm_compute in Hsp. discriminate.
  - intros cv Hcv. vm_compute in Hcv. discriminate.
Defined.

(** C5, as stated, fails for a renamed and for a hidden column: resolved
    against the hard-coded defaults, a configuration with [split = ","] and
    the identity template that also sets [clientname = "y"] is given the key
    ["y"], and one that sets [visible = False] the key ["__col"], not the
    configuration's name. *)
Lemma transform1_split_identity_counterexample :
  let renamed : gmap string pyval :=
    {[ "name" := VStr "col"; "clientname" := VStr "y"; "split" := VStr ",";
       "clientvalue" := VStr "{{ value }}" ]} in
  let hidden : gmap string pyval :=
    {[ "name" := VStr "col"; "visible" := VBool false; "split" := VStr ",";
       "clientvalue" := VStr "{{ value }}" ]} in
  (get_column_config default_defaults renamed = Ok (renamed ∪ default_defaults)
   ∧ (renamed ∪ default_defaults) !! "name" = Some (VStr "col")
   ∧ (renamed ∪ default_defaults) !! "split" = Some (VStr ",")
   ∧ (renamed ∪ default_defaults) !! "clientvalue" = Some (VStr "{{ value }}")
   ∧ transform1 (fun _ => Raise ReError) "a, b ,c" (renamed ∪ default_defaults)
     = Ok (VStr "y", ["a"; "b"; "c"])
   ∧ transform1 (fun _ => Raise ReError) "a, b ,c" (renamed ∪ default_defaults)
     ≠ Ok (VStr "col", ["a"; "b"; "c"]))
  ∧ (get_column_config default_defaults hidden = Ok (hidden ∪ default_defaults)
     ∧ (hidden ∪ default_defaults) !! "name" = Some (VStr "col")
     ∧ (hidden ∪ default_defaults) !! "split" = Some (VStr ",")
     ∧ (hidden ∪ default_defaults) !! "clientvalue" = Some (VStr "{{ value }}")
     ∧ transform1 (fun _ => Raise ReError) "a, b ,c" (hidden ∪ default_defaults)
       = Ok (VStr "__col", ["a"; "b"; "c"])
     ∧ transform1 (fun _ => Raise ReError) "a, b ,c" (hidden ∪ default_defaults)
       ≠ Ok (VStr "col", ["a"; "b"; "c"])).
Proof.
  intros renamed hidden.
  assert (transform1 (fun _ => Raise ReError) "a, b ,c" (renamed ∪ default_defaults)
          = Ok (VStr "y", ["a"; "b"; "c"])) as Hr by (vm_compute; reflexivity).
  assert (transform1 (fun _ => Raise ReError) "a, b ,c" (hidden ∪ default_defaults)
          = Ok (VStr "__col", ["a"; "b"; "c"])) as Hh by (vm_compute; reflexivity).
  split.
  - repeat split; try (vm_compute; reflexivity). rewrite Hr. discriminate.
  - repeat split; try (vm_compute; reflexivity). rewrite Hh. discriminate.
Qed.

(** C5, amended. For a column configuration with [split = ","] and the
    identity template [clientvalue = "{{ value }}"],
    [transform1("a, b ,c", cfg)] returns [["a", "b", "c"]] with the key of
    the configuration: its name, replaced by [clientname] when present and
    prefixed with ["__"] when [visible] is present and false, hence the
    name itself when the configuration has no [clientname] and is not
    hidden. The value is cut at the delimiter, every piece is stripped of
    surrounding whitespace, and the identity template returns each piece
    unchanged. *)
Theorem transform1_split_identity (subx : string → result (string → result string))
    (cfg : gmap string pyval) (name : pyval) :
  cfg !! "name" = Some name →
  cfg !! "split" = Some (VStr ",") →
  cfg !! "clientvalue" = Some (VStr "{{ value }}") →
  (∃ key, transform1 subx "a, b ,c" cfg = Ok (key, ["a"; "b"; "c"])
          ∧ key = match cfg !! "visible" with
                  | Some visible =>
                      if truthy visible then default name (cfg !! "clientname")
                      else VStr ("__" +:+ format_s (default name (cfg !! "clientname")))
                  | None => default name (cfg !! "clientname")
                  end)
  ∧ (cfg !! "clientname" = None →
     (∀ visible, cfg !! "visible" = Some visible → truthy visible = true) →
     transform1 subx "a, b ,c" cfg = Ok (name, ["a"; "b"; "c"]))
  ∧ split "," "a, b ,c" = ["a"; " b "; "c"]
  ∧ map strip ["a"; " b "; "c"] = ["a"; "b"; "c"]
  ∧ comprehension (fun v => valuesub subx v (VStr "{{ value }}")) ["a"; "b"; "c"]
      = Ok ["a"; "b"; "c"]
  ∧ (∀ v, literal_template v = true → valuesub subx v (VStr "{{ value }}") = Ok v).
Proof.
  intros Hname Hsplit Hcv.
  split; [|split; [|split; [|split; [|split]]]]; try reflexivity.
  - eexists. split.
    + unfold transform1.
      rewrite (transform1_key_Some cfg name Hname), Hsplit, Hcv. reflexivity.
    + by destruct (cfg !! "clientname").
  - intros Hcn Hvis. unfold transform1.
    rewrite (transform1_key_Some cfg name Hname), Hcn, Hsplit, Hcv.
    destruct (cfg !! "visible") as [visible|]; [|reflexivity].
    rewrite (Hvis visible eq_refl). reflexivity.
  - apply valuesub_identity.
Qed.

(** The configuration [{name, split, clientvalue}] resolved against the
    hard-coded defaults. *)
Lemma transform1_split_identity_witness :
  ∃ cfg,
    get_column_config default_defaults
      {[ "name" := VStr "col"; "split" := VStr ","; "clientvalue" := VStr "{{ value }}" ]}
      = Ok cfg
    ∧ transform1 (fun _ => Raise ReError) "a, b ,c" cfg
      = Ok (VStr "col", ["a"; "b"; "c"]).
Proof.
  eexists. split; [vm_compute; reflexivity|].
  refine (proj1 (proj2 (transform1_split_identity (fun _ => Raise ReError) _ (VStr "col")
                          _ _ _)) _ _).
  - vm_compute; reflexivity.
  - vm_compute; reflexivity.
  - vm_compute; reflexivity.
  - vm_compute; reflexivity.
  - intros visible Hv. vm_compute in Hv. injection Hv as <-. reflexivity.
Defined.

(** ** The per-row transform *)

Lemma transform_unfold (subx : string → result (string → result string))
    (headers : list string) (default_cfg : option (gmap string pyval))
    (cfgs : list (gmap string pyval)) (tr : KeyValueListTransformer.t)
    (row : list string) :
  KeyValueListTransformer.init headers default_cfg cfgs = Ok tr →
  transform subx tr row =
    if decide (length row = distinct headers)
    then comprehension
           (fun ci : gmap string pyval * nat =>
              v <- row_getitem row ci.2 ;; transform1 subx v ci.1)
           (output_configs tr)
    else Raise AssertionError.
Proof.
  intros (_ & _ & Hmap & _)%transformer_init_Ok.
  unfold transform. by rewrite Hmap, size_header_index_map.
Qed.

(** C2. With headers [["A", "B"]], empty (or absent) defaults and the
    column configurations [{name: "A", clientname: "alpha"}] and
    [{name: "B", split: ";"}], the row [["1", "x;y"]] is transformed to
    [[("alpha", ["1"]), ("B", ["x", "y"])]]; with the two configurations
    swapped the two pairs come out swapped. In general the i-th output pair
    is [transform1] of the i-th column configuration (defaults merged in)
    applied to the cell under the header carrying its name. *)
Theorem transform_follows_column_configs
    (subx : string → result (string → result string)) :
  let cfg_a : gmap string pyval := {[ "name" := VStr "A"; "clientname" := VStr "alpha" ]} in
  let cfg_b : gmap string pyval := {[ "name" := VStr "B"; "split" := VStr ";" ]} in
  (∀ default_cfg, default_cfg = None ∨ default_cfg = Some ∅ →
     (tr <- KeyValueListTransformer.init ["A"; "B"] default_cfg [cfg_a; cfg_b] ;;
      transform subx tr ["1"; "x;y"])
     = Ok [(VStr "alpha", ["1"]); (VStr "B", ["x"; "y"])])
  ∧ (tr <- KeyValueListTransformer.init ["A"; "B"] None [cfg_b; cfg_a] ;;
     transform subx tr ["1"; "x;y"])
    = Ok [(VStr "B", ["x"; "y"]); (VStr "alpha", ["1"])]
  ∧ (∀ headers default_cfg cfgs tr row out,
       KeyValueListTransformer.init headers default_cfg cfgs = Ok tr →
       transform subx tr row = Ok out →
       Forall2 (fun c kv =>
                  ∃ name i v,
                    c !! "name" = Some (VStr name)
                    ∧ headers !! i = Some name
                    ∧ row !! i = Some v
                    ∧ transform1 subx v (c ∪ KeyValueListTransformer.defaults tr) = Ok kv)
         cfgs out).
Proof.
  intros cfg_a cfg_b. split; [|split].
  - intros default_cfg [-> | ->]; vm_compute; reflexivity.
  - vm_compute; reflexivity.
  - intros headers default_cfg cfgs tr row out Hinit Hout.
    rewrite (transform_unfold _ _ _ _ _ _ Hinit) in Hout.
    case_decide; [|done]. apply comprehension_Ok in Hout.
    pose proof (init_output_configs headers default_cfg cfgs tr Hinit) as Hpairs.
    eapply Forall2_impl; [exact (Forall2_compose _ _ _ _ _ Hpairs Hout)|].
    intros c kv ([rc i] & (Hrc & name & Hname & Hh) & Hkv). simpl in *. subst rc.
    unfold row_getitem in Hkv.
    destruct (row !! i) as [v|] eqn:Hv; simpl in Hkv; [|done].
    by exists name, i, v.
Qed.

(** The scenario with an empty dictionary of defaults. *)
Lemma transform_follows_column_configs_witness :
  (tr <- KeyValueListTransformer.init ["A"; "B"] (Some ∅)
           [ {[ "name" := VStr "A"; "clientname" := VStr "alpha" ]};
             {[ "name" := VStr "B"; "split" := VStr ";" ]} ] ;;
   transform (fun _ => Raise ReError) tr ["1"; "x;y"])
  = Ok [(VStr "alpha", ["1"]); (VStr "B", ["x"; "y"])].
Proof.
  refine (proj1 (transform_follows_column_configs (fun _ => Raise ReError)) (Some ∅) _).
  right. reflexivity.
Defined.

(** C7, as stated, fails for the row transformer when a header occurs
    twice: a row shorter than the header list passes the check, and a row as
    long as the header list does not. *)
Lemma row_length_check_counterexample :
  let headers := ["A"; "A"] in
  length ["v"] ≠ length headers
  ∧ (tr <- KeyValueListTransformer.init headers None [] ;;
     transform (fun _ => Raise ReError) tr ["v"]) = Ok []
  ∧ (tr <- KeyValueListTransformer.init headers None [] ;;
     transform (fun _ => Raise ReError) tr ["v"; "w"]) = Raise AssertionError.
Proof. repeat split; [simpl; lia | vm_compute; reflexivity ..]. Qed.

(** C7, amended. When the headers are pairwise distinct, the row
    transformer raises the assertion error on every row whose length differs
    from the header count, and on a row of matching length the check passes:
    the result is that of the comprehension over the output configurations,
    each of which finds its cell. The pass-through transformer, for any
    headers, raises the assertion error on every row whose length differs
    from the header count, the rows before it having been yielded unchanged,
    and yields the zipped row when the lengths agree. *)
Theorem row_length_precondition (subx : string → result (string → result string)) :
  (∀ headers default_cfg cfgs tr row,
     NoDup headers →
     KeyValueListTransformer.init headers default_cfg cfgs = Ok tr →
     (length row ≠ length headers → transform subx tr row = Raise AssertionError)
     ∧ (length row = length headers →
        transform subx tr row =
          comprehension
            (fun ci : gmap string pyval * nat =>
               v <- row_getitem row ci.2 ;; transform1 subx v ci.1)
            (output_configs tr)
        ∧ Forall (fun ci : gmap string pyval * nat => ∃ v, row_getitem row ci.2 = Ok v)
            (output_configs tr)))
  ∧ (∀ headers default_cfg column_cfgs row,
       let pt := KeyValueListPassThrough.init headers default_cfg column_cfgs in
       (length row ≠ length headers →
        KeyValueListPassThrough.transform_row pt row = Raise AssertionError
        ∧ ∀ before after,
            Forall (fun r : list string => length r = length headers) before →
            KeyValueListPassThrough.transform_gen pt (before ++ row :: after)%list
            = (map (zip headers) before, KeyValueListPassThrough.Raised AssertionError))
       ∧ (length row = length headers →
          KeyValueListPassThrough.transform_row pt row = Ok (zip headers row))).
Proof.
  split.
  - intros headers default_cfg cfgs tr row Hnd Hinit.
    rewrite (transform_unfold _ _ _ _ _ _ Hinit).
    apply distinct_eq_NoDup in Hnd. rewrite Hnd. split.
    + intros Hne. by rewrite decide_False.
    + intros Heq. rewrite decide_True by done. split; [done|].
      pose proof (init_output_configs _ _ _ _ Hinit) as Hpairs.
      apply Forall2_Forall_r with (Q := fun ci => ∃ v, row_getitem row ci.2 = Ok v)
        in Hpairs; [done|].
      apply Forall_true. intros c ci (_ & name & _ & Hh).
      apply lookup_lt_Some in Hh. rewrite <- Heq in Hh.
      apply lookup_lt_is_Some_2 in Hh as [v Hv].
      exists v. unfold row_getitem. by rewrite Hv.
  - intros headers default_cfg column_cfgs row pt.
    unfold KeyValueListPassThrough.transform_row. simpl. split.
    + intros Hne. rewrite decide_False by done. split; [done|].
      intros before after Hbefore.
      induction Hbefore as [|r before Hr _ IH]; simpl.
      * unfold KeyValueListPassThrough.transform_row. simpl.
        by rewrite decide_False.
      * unfold KeyValueListPassThrough.transform_row at 1. simpl.
        rewrite decide_True by done. by rewrite IH.
    + intros Heq. by rewrite decide_True.
Qed.

(** A row of one cell under two distinct headers. *)
Lemma row_length_precondition_witness :
  ∃ tr, KeyValueListTransformer.init ["A"; "B"] None [ {[ "name" := VStr "B" ]} ] = Ok tr
    ∧ transform (fun _ => Raise ReError) tr ["1"] = Raise AssertionError.
Proof.
  eexists. split; [vm_compute; reflexivity|].
  refine (proj1 (proj1 (row_length_precondition (fun _ => Raise ReError))
                   ["A"; "B"] None [ {[ "name" := VStr "B" ]} ] _ ["1"] _ _) _).
  - compute_done.
  - vm_compute; reflexivity.
  - simpl; lia.
Defined.

(** C9. The pass-through transformer, over any headers, turns a row whose
    length equals the header count into the (header, value) pairs in header
    order with the values unchanged, and a sequence of such rows into the
    sequence of their pair lists; headers [["A", "B"]] with the row
    [["1", "2"]] give [[("A", "1"), ("B", "2")]]. *)
Theorem pass_through_pairs :
  (∀ headers default_cfg column_cfgs row,
     let pt := KeyValueListPassThrough.init headers default_cfg column_cfgs in
     length row = length headers →
     ∃ kvs, KeyValueListPassThrough.transform_row pt row = Ok kvs
       ∧ kvs.*1 = headers ∧ kvs.*2 = row
       ∧ ∀ i h v, headers !! i = Some h → row !! i = Some v → kvs !! i = Some (h, v))
  ∧ (∀ headers default_cfg column_cfgs values,
       let pt := KeyValueListPassThrough.init headers default_cfg column_cfgs in
       Forall (fun row : list string => length row = length headers) values →
       KeyValueListPassThrough.transform_gen pt values
       = (map (zip headers) values, KeyValueListPassThrough.StopIteration))
  ∧ (∀ default_cfg column_cfgs,
       let pt := KeyValueListPassThrough.init ["A"; "B"] default_cfg column_cfgs in
       KeyValueListPassThrough.transform_row pt ["1"; "2"] = Ok [("A", "1"); ("B", "2")]
       ∧ KeyValueListPassThrough.transform_gen pt [["1"; "2"]]
         = ([[("A", "1"); ("B", "2")]], KeyValueListPassThrough.StopIteration)).
Proof.
  split; [|split].
  - intros headers default_cfg column_cfgs row pt Hlen.
    exists (zip headers row). unfold KeyValueListPassThrough.transform_row. simpl.
    rewrite decide_True by done. split; [done|].
    split; [apply fst_zip; lia|]. split; [apply snd_zip; lia|].
    intros i h v Hh Hv. apply lookup_zip_with_Some. eauto.
  - intros headers default_cfg column_cfgs values pt Hvalues.
    induction Hvalues as [|row values Hrow _ IH]; simpl; [done|].
    unfold KeyValueListPassThrough.transform_row at 1. simpl.
    rewrite decide_True by done. by rewrite IH.
  - intros default_cfg column_cfgs pt. split; reflexivity.
Qed.

(** Three headers, three cells. *)
Lemma pass_through_pairs_witness :
  ∃ kvs,
    KeyValueListPassThrough.transform_row
      (KeyValueListPassThrough.init ["A"; "B"; "C"] None None) ["1"; "2"; "3"] = Ok kvs
    ∧ kvs.*1 = ["A"; "B"; "C"] ∧ kvs.*2 = ["1"; "2"; "3"]
    ∧ ∀ i h v, ["A"; "B"; "C"] !! i = Some h → ["1"; "2"; "3"] !! i = Some v →
        kvs !! i = Some (h, v).
Proof.
  refine (proj1 pass_through_pairs ["A"; "B"; "C"] None None ["1"; "2"; "3"] _).
  reflexivity.
Defined.

(** C10. The header index map keeps one entry per distinct header, holding
    the index of its last occurrence; the row transformer's check compares
    the row length with the number of distinct headers, so when some header
    occurs twice a row as long as the header list fails the check. *)
Theorem duplicate_headers_collapse (subx : string → result (string → result string))
    (headers : list string) (default_cfg : option (gmap string pyval))
    (cfgs : list (gmap string pyval)) (tr : KeyValueListTransformer.t) :
  KeyValueListTransformer.init headers default_cfg cfgs = Ok tr →
  (∀ h i, headerindexmap tr !! h = Some i ↔
     headers !! i = Some h ∧ ∀ j, (i < j)%nat → headers !! j ≠ Some h)
  ∧ size (headerindexmap tr) = distinct headers
  ∧ (∀ row, length row ≠ distinct headers →
       transform subx tr row = Raise AssertionError)
  ∧ (¬ NoDup headers →
     (distinct headers < length headers)%nat
     ∧ ∀ row, length row = length headers →
         transform subx tr row = Raise AssertionError).
Proof.
  intros Hinit. pose proof (transformer_init_Ok _ _ _ _ Hinit) as (_ & _ & Hmap & _).
  split; [|split; [|split]].
  - intros h i. rewrite Hmap. apply header_index_map_lookup.
  - rewrite Hmap. apply size_header_index_map.
  - intros row Hne. rewrite (transform_unfold _ _ _ _ _ _ Hinit).
    by rewrite decide_False.
  - intros Hdup.
    assert (distinct headers < length headers)%nat as Hlt.
    { pose proof (distinct_le headers).
      destruct (decide (distinct headers = length headers)) as [He|]; [|lia].
      by apply distinct_eq_NoDup in He. }
    split; [done|]. intros row Hlen.
    rewrite (transform_unfold _ _ _ _ _ _ Hinit).
    rewrite decide_False; [done|lia].
Qed.

(** Headers [["A", "B", "A"]]: ["A"] is found at index 2, the map has two
    entries, and a row of three cells is refused. *)
Lemma duplicate_headers_collapse_witness :
  ∃ tr, KeyValueListTransformer.init ["A"; "B"; "A"] None [ {[ "name" := VStr "A" ]} ] = Ok tr
    ∧ headerindexmap tr !! "A" = Some 2%nat
    ∧ size (headerindexmap tr) = 2%nat
    ∧ transform (fun _ => Raise ReError) tr ["1"; "2"; "3"] = Raise AssertionError.
Proof.
  destruct (KeyValueListTransformer.init ["A"; "B"; "A"] None [ {[ "name" := VStr "A" ]} ])
    as [tr|e] eqn:Hinit; [|vm_compute in Hinit; discriminate].
  exists tr. split; [reflexivity|].
  pose proof (duplicate_headers_collapse (fun _ => Raise ReError)
                ["A"; "B"; "A"] None [ {[ "name" := VStr "A" ]} ] tr Hinit)
    as (Hlast & Hsize & _ & Hdup).
  split; [|split].
  - apply Hlast. split; [reflexivity|].
    intros [|[|[|j]]] Hj; simpl; try lia; discriminate.
  - rewrite Hsize. reflexivity.
  - apply Hdup; [|reflexivity].
    intros Hnd. apply NoDup_cons in Hnd as [Hin _]. apply Hin.
    apply elem_of_cons. right. apply elem_of_cons. by left.
Defined.

(** * Further properties *)

Example format_line_example :
  format_line 3 (VStr "alpha") "x" = " 3      alpha : x"
  ∧ format_line 12 (VStr "a_long_column") "" = " 12 a_long_column : ".
Proof. split; reflexivity. Qed.

(** ** Helpers *)

Lemma validate_column_config_Ok (c : gmap string pyval) :
  validate_column_config c = Ok tt ↔
    (∃ name, c !! "name" = Some name ∧ truthy name = true)
    ∧ dom c ⊆ allowed ∧ well_formed_clientvalue c.
Proof.
  rewrite validate_column_config_unfold. unfold well_formed_clientvalue, check_template.
  destruct (c !! "name") as [name|] eqn:Hname.
  - destruct (truthy name) eqn:Ht.
    + destruct (decide (dom c ⊆ allowed)) as [Hsub|Hsub].
      * destruct (c !! "clientvalue") as [[| | |cv]|]; try naive_solver.
        destruct (sub_value_go_total "" cv 0) as [out Hout].
        unfold sub_value. rewrite Hout. simpl.
        destruct (search_token out) eqn:Hs.
        -- split; [done|]. intros (_ & _ & out' & [= <-] & ?). congruence.
        -- split; [|done]. intros _. eauto 10.
      * split; [done|]. by intros (_ & ? & _).
    + split; [done|]. intros ((name' & [= <-] & ?) & _). congruence.
  - split; [done|]. by intros ((name' & ? & _) & _).
Qed.

(** Validation raises the configuration exception or, for a [clientvalue]
    that is not a string, a type error. *)
Lemma validate_column_config_Raise (c : gmap string pyval) (e : exn) :
  validate_column_config c = Raise e → (∃ p, e = Exception p) ∨ e = TypeError.
Proof.
  rewrite validate_column_config_unfold. unfold check_template.
  destruct (c !! "name") as [name|]; [|intros [= <-]; eauto].
  destruct (truthy name); [|intros [= <-]; eauto].
  case_decide; [|intros [= <-]; eauto].
  destruct (c !! "clientvalue") as [[| | |cv]|]; try (intros [= <-]; eauto); try done.
  destruct (sub_value_go_total "" cv 0) as [out Hout].
  unfold sub_value. rewrite Hout. simpl.
  destruct (search_token out); [intros [= <-]; eauto|done].
Qed.

Lemma get_default_cfg_Raise (cfg : option (gmap string pyval)) (e : exn) :
  get_default_cfg cfg = Raise e → ∃ p, e = Exception p.
Proof.
  rewrite get_default_cfg_unfold. case_decide; [done|]. intros [= <-]. eauto.
Qed.

Lemma get_default_cfg_dom (cfg : option (gmap string pyval)) (d : gmap string pyval) :
  get_default_cfg cfg = Ok d → dom d = recognized.
Proof.
  rewrite get_default_cfg_unfold. case_decide as Hd; [|done]. intros [= <-].
  rewrite dom_union_L, dom_default_defaults.
  apply set_eq. intros k. rewrite elem_of_union. split; [|by right].
  intros [Hk|Hk]; [|done]. destruct (decide (k ∈ recognized)) as [|Hout]; [done|].
  assert (k ∈ dom (default ∅ cfg) ∖ recognized) as Hin by (by apply elem_of_difference).
  rewrite Hd in Hin. by apply not_elem_of_empty in Hin.
Qed.

Lemma recognized_allowed : recognized ⊆ allowed.
Proof. compute_done. Qed.

Lemma comprehension_app_Raise {A B : Type} (f : A → result B)
    (before : list A) (a : A) (after : list A) (e : exn) :
  Forall (fun x => ∃ b, f x = Ok b) before → f a = Raise e →
  comprehension f (before ++ a :: after) = Raise e.
Proof.
  induction 1 as [|x before' [b Hb] _ IH]; intros Ha; simpl; [by rewrite Ha|].
  rewrite Hb. simpl. by rewrite IH.
Qed.

Lemma comprehension_Raise_split {A B : Type} (f : A → result B) (l : list A) (e : exn) :
  comprehension f l = Raise e →
  ∃ before a after, l = (before ++ a :: after)%list
    ∧ Forall (fun x => ∃ b, f x = Ok b) before ∧ f a = Raise e.
Proof.
  induction l as [|x l IH]; simpl; [done|].
  destruct (f x) as [b|e'] eqn:Hx; simpl.
  - destruct (comprehension f l) as [bs|e'']; simpl; [done|].
    intros [= ->]. destruct IH as (before & a & after & -> & Hb & Ha); [done|].
    exists (x :: before), a, after. split; [done|]. split; [|done].
    constructor; eauto.
  - intros [= ->]. exists [], x, l. by repeat split.
Qed.

(** The first element on which the comprehension raises decides the
    exception. *)
Lemma comprehension_Raise_first {A B : Type} (f : A → result B) (l : list A) (e : exn) :
  comprehension f l = Raise e ↔
    ∃ before a after, l = (before ++ a :: after)%list
      ∧ Forall (fun x => ∃ b, f x = Ok b) before ∧ f a = Raise e.
Proof.
  split; [apply comprehension_Raise_split|].
  intros (before & a & after & -> & Hb & Ha). by apply comprehension_app_Raise.
Qed.

Lemma comprehension_length {A B : Type} (f : A → result B) (l : list A) (out : list B) :
  comprehension f l = Ok out → length out = length l.
Proof. intros H%comprehension_Ok. symmetry. by eapply Forall2_length. Qed.

Lemma comprehension_total {A B : Type} (f : A → result B) (l : list A) :
  Forall (fun a => ∃ b, f a = Ok b) l → ∃ out, comprehension f l = Ok out.
Proof.
  induction 1 as [|a l' [b Hb] _ [out IH]]; simpl; [by eauto|].
  rewrite Hb, IH. simpl. eauto.
Qed.

Lemma comprehension_same {A B : Type} (f g : A → result B) (l : list A) :
  Forall (fun a => f a = g a) l → comprehension f l = comprehension g l.
Proof. induction 1 as [|a l' Ha _ IH]; simpl; [done|]. by rewrite Ha, IH. Qed.


Lemma configuration_init_success (default_cfg : option (gmap string pyval))
    (cfgs : list (gmap string pyval)) (d : gmap string pyval) :
  get_default_cfg default_cfg = Ok d →
  Forall (fun c => validate_column_config c = Ok tt) cfgs →
  BulkAnnotationConfiguration.init default_cfg cfgs
  = Ok (BulkAnnotationConfiguration.Build d (map (fun c => c ∪ d) cfgs)).
Proof.
  intros Hd Hvalid. unfold BulkAnnotationConfiguration.init. rewrite Hd. simpl.
  assert (comprehension (get_column_config d) cfgs = Ok (map (fun c => c ∪ d) cfgs))
    as ->; [|done].
  apply comprehension_Forall2.
  induction Hvalid as [|c cfgs' Hc _ IH]; simpl; [constructor|].
  constructor; [|done]. unfold get_column_config. by rewrite Hc.
Qed.

Lemma configuration_init_first_error_aux (default_cfg : option (gmap string pyval))
    (cfgs : list (gmap string pyval)) (e : exn) :
  BulkAnnotationConfiguration.init default_cfg cfgs = Raise e →
  (∃ p, e = Exception p) ∨ e = TypeError.
Proof.
  unfold BulkAnnotationConfiguration.init.
  destruct (get_default_cfg default_cfg) as [d|e'] eqn:Hd; simpl.
  - destruct (comprehension (get_column_config d) cfgs) as [cs|e''] eqn:Hcs;
      simpl; [done|].
    intros [= ->]. apply comprehension_Raise_split in Hcs as (_ & c & _ & _ & _ & Hc).
    unfold get_column_config in Hc.
    destruct (validate_column_config c) as [[]|e'] eqn:Hv; simpl in Hc; [done|].
    injection Hc as ->. by eapply validate_column_config_Raise.
  - intros [= ->]. left. by eapply get_default_cfg_Raise.
Qed.

(** ** Resolving configurations *)

(** X1. The configuration resolver is built exactly when the defaults and
    every column configuration are valid; it then holds one resolved
    configuration per column configuration, in order, in which every key of
    the column configuration keeps its value and every other key has the
    value of the defaults. *)
Theorem configuration_init_characterised (default_cfg : option (gmap string pyval))
    (cfgs : list (gmap string pyval)) (conf : BulkAnnotationConfiguration.t) :
  BulkAnnotationConfiguration.init default_cfg cfgs = Ok conf ↔
    get_default_cfg default_cfg = Ok (BulkAnnotationConfiguration.defaults conf)
    ∧ Forall (fun c => validate_column_config c = Ok tt) cfgs
    ∧ Forall2 (fun c rc : gmap string pyval =>
                 ∀ k, rc !! k = match c !! k with
                                | Some v => Some v
                                | None => BulkAnnotationConfiguration.defaults conf !! k
                                end)
        cfgs (BulkAnnotationConfiguration.column_cfgs conf).
Proof.
  split.
  - intros [Hd Hcs]%configuration_init_Ok. split; [done|]. split.
    + eapply Forall2_Forall_l; [exact Hcs|]. apply Forall_true. by intros c rc [? _].
    + eapply Forall2_impl; [exact Hcs|]. intros c rc [_ ->] k.
      rewrite lookup_union. destruct (c !! k), (_ !! k); done.
  - intros (Hd & Hvalid & Hcs). destruct conf as [d rcs]. simpl in *.
    rewrite (configuration_init_success _ _ d Hd Hvalid). do 2 f_equal.
    clear Hvalid Hd. induction Hcs as [|c rc cfgs' rcs' Hrc _ IH]; simpl; [done|].
    f_equal; [|done]. apply map_eq. intros k. rewrite Hrc, lookup_union.
    destruct (c !! k), (d !! k); done.
Qed.


Lemma configuration_init_characterised_witness :
  BulkAnnotationConfiguration.init (Some {[ "split" := VStr ";" ]})
    [ {[ "name" := VStr "A" ]}; {[ "name" := VStr "B"; "split" := VBool false ]} ]
  = Ok (BulkAnnotationConfiguration.Build
          ({[ "split" := VStr ";" ]} ∪ default_defaults)
          [ {[ "name" := VStr "A" ]} ∪ ({[ "split" := VStr ";" ]} ∪ default_defaults);
            {[ "name" := VStr "B"; "split" := VBool false ]}
              ∪ ({[ "split" := VStr ";" ]} ∪ default_defaults) ]).
Proof.
  apply (proj2 (configuration_init_characterised
                  (Some {[ "split" := VStr ";" ]})
                  [ {[ "name" := VStr "A" ]}; {[ "name" := VStr "B"; "split" := VBool false ]} ]
                  (BulkAnnotationConfiguration.Build
                     ({[ "split" := VStr ";" ]} ∪ default_defaults)
                     [ {[ "name" := VStr "A" ]} ∪ ({[ "split" := VStr ";" ]} ∪ default_defaults);
                       {[ "name" := VStr "B"; "split" := VBool false ]}
                         ∪ ({[ "split" := VStr ";" ]} ∪ default_defaults) ]))).
  split; [vm_compute; reflexivity|]. split.
  - repeat constructor.
  - simpl. repeat constructor; intros k; rewrite lookup_union;
      by destruct (_ !! k), (_ !! k).
Defined.

(** X2. When the resolver cannot be built, the exception is that of the
    defaults if they are invalid, and otherwise that of the first invalid
    column configuration; it is the configuration exception or a type
    error, never a lookup error. *)
Theorem configuration_init_first_error (default_cfg : option (gmap string pyval))
    (cfgs : list (gmap string pyval)) (e : exn) :
  (BulkAnnotationConfiguration.init default_cfg cfgs = Raise e ↔
     get_default_cfg default_cfg = Raise e
     ∨ ∃ d before c after,
         get_default_cfg default_cfg = Ok d
         ∧ cfgs = (before ++ c :: after)%list
         ∧ Forall (fun c' => validate_column_config c' = Ok tt) before
         ∧ validate_column_config c = Raise e)
  ∧ (BulkAnnotationConfiguration.init default_cfg cfgs = Raise e →
     (∃ p, e = Exception p) ∨ e = TypeError).
Proof.
  assert (BulkAnnotationConfiguration.init default_cfg cfgs = Raise e ↔
     get_default_cfg default_cfg = Raise e
     ∨ ∃ d before c after,
         get_default_cfg default_cfg = Ok d
         ∧ cfgs = (before ++ c :: after)%list
         ∧ Forall (fun c' => validate_column_config c' = Ok tt) before
         ∧ validate_column_config c = Raise e) as Hiff.
  { unfold BulkAnnotationConfiguration.init.
    destruct (get_default_cfg default_cfg) as [d|e'] eqn:Hd; simpl.
    - destruct (comprehension (get_column_config d) cfgs) as [cs|e''] eqn:Hcs; simpl.
      + split; [done|]. intros [|(d' & before & c & after & [= <-] & -> & Hb & Hc)]; [done|].
        assert (comprehension (get_column_config d) (before ++ c :: after) = Raise e)
          as Hr; [|congruence].
        apply comprehension_Raise_first. exists before, c, after.
        split; [done|]. split.
        * eapply Forall_impl; [exact Hb|]. intros c' Hc'.
          unfold get_column_config. rewrite Hc'. simpl. eauto.
        * unfold get_column_config. by rewrite Hc.
      + apply comprehension_Raise_first in Hcs
          as (before & c & after & -> & Hb & Hc).
        assert (validate_column_config c = Raise e'') as Hc'.
        { unfold get_column_config in Hc.
          by destruct (validate_column_config c) as [[]|]; simpl in Hc; [|congruence]. }
        assert (Forall (fun c' => validate_column_config c' = Ok tt) before) as Hb'.
        { eapply Forall_impl; [exact Hb|]. intros c' [b Hc'']. simpl in Hc''.
          unfold get_column_config in Hc''.
          by destruct (validate_column_config c') as [[]|]. }
        split.
        * intros [= <-]. right. eauto 10.
        * intros [|(d' & before' & c' & after' & [= <-] & Heq & Hb'' & Hc'')]; [done|].
          f_equal.
          assert (comprehension (get_column_config d) (before ++ c :: after) = Raise e)
            as Hr.
          { rewrite Heq. apply comprehension_Raise_first. exists before', c', after'.
            split; [done|]. split.
            - eapply Forall_impl; [exact Hb''|]. intros x Hx.
              unfold get_column_config. rewrite Hx. simpl. eauto.
            - unfold get_column_config. by rewrite Hc''. }
          assert (comprehension (get_column_config d) (before ++ c :: after) = Raise e'')
            as Hr'; [|congruence].
          apply comprehension_Raise_first. eauto 10.
    - split; [intros [= <-]; by left|]. intros [[= <-]|(d' & ? & ? & ? & ? & _)]; done. }
  split; [done|]. intros [Hd|(d & before & c & after & _ & _ & _ & Hc)]%Hiff.
  - left. by eapply get_default_cfg_Raise.
  - by eapply validate_column_config_Raise.
Qed.


(** The second column configuration lacks its name; the empty name of the
    third is not reached. *)
Lemma configuration_init_first_error_witness :
  BulkAnnotationConfiguration.init None
    [ {[ "name" := VStr "A" ]}; {[ "split" := VStr ";" ]}; {[ "name" := VStr "" ]} ]
  = Raise (Exception (MissingRequiredKeys {[ "name" ]})).
Proof.
  apply (proj2 (proj1 (configuration_init_first_error None _ _))).
  right. exists default_defaults, [ {[ "name" := VStr "A" ]} ],
    {[ "split" := VStr ";" ]}, [ {[ "name" := VStr "" ]} ].
  split; [reflexivity|]. split; [reflexivity|]. split.
  - repeat constructor.
  - reflexivity.
Defined.

(** X3. Every resolved column configuration of a resolver holds the six
    option keys, so that the lookups of [name], [visible], [split] and
    [clientvalue] in [transform1] all find a value; its keys are those of
    the column configuration together with the six, all among the nine
    allowed ones, and its [name] is the truthy one of the column
    configuration. *)
Theorem resolved_configs_complete (default_cfg : option (gmap string pyval))
    (cfgs : list (gmap string pyval)) (conf : BulkAnnotationConfiguration.t) :
  BulkAnnotationConfiguration.init default_cfg cfgs = Ok conf →
  dom (BulkAnnotationConfiguration.defaults conf) = recognized
  ∧ Forall2 (fun c rc : gmap string pyval =>
               dom rc = dom c ∪ recognized
               ∧ dom rc ⊆ allowed
               ∧ (∀ k, k ∈ recognized → is_Some (rc !! k))
               ∧ (∃ name, c !! "name" = Some name ∧ rc !! "name" = Some name
                          ∧ truthy name = true)
               ∧ ∃ key, transform1_key rc = Ok key)
      cfgs (BulkAnnotationConfiguration.column_cfgs conf).
Proof.
  intros [Hd Hcs]%configuration_init_Ok.
  pose proof (get_default_cfg_dom _ _ Hd) as Hdom. split; [done|].
  eapply Forall2_impl; [exact Hcs|]. intros c rc [Hv ->].
  pose proof (resolved_name c (BulkAnnotationConfiguration.defaults conf) Hv) as Hname.
  apply validate_column_config_Ok in Hv as ((name & Hn & Ht) & Hsub & _).
  assert (dom (c ∪ BulkAnnotationConfiguration.defaults conf) = dom c ∪ recognized)
    as Hdomrc by (by rewrite dom_union_L, Hdom).
  split; [done|]. split; [|split; [|split]].
  - rewrite Hdomrc. apply union_subseteq. split; [done|apply recognized_allowed].
  - intros k Hk. apply elem_of_dom. rewrite Hdomrc. apply elem_of_union. by right.
  - exists name. by rewrite Hname.
  - rewrite Hn in Hname. rewrite (transform1_key_Some _ _ Hname). eauto.
Qed.


Lemma resolved_configs_complete_witness :
  ∃ conf,
    BulkAnnotationConfiguration.init None [ {[ "name" := VStr "A"; "position" := VInt 1 ]} ]
    = Ok conf
    ∧ dom (BulkAnnotationConfiguration.defaults conf) = recognized.
Proof.
  destruct (BulkAnnotationConfiguration.init None
              [ {[ "name" := VStr "A"; "position" := VInt 1 ]} ])
    as [conf|e] eqn:Hinit; [|vm_compute in Hinit; discriminate].
  exists conf. split; [reflexivity|].
  exact (proj1 (resolved_configs_complete None
                  [ {[ "name" := VStr "A"; "position" := VInt 1 ]} ] conf Hinit)).
Defined.

(** X4. Resolving resolved defaults again changes nothing. *)
Theorem get_default_cfg_idempotent (cfg : option (gmap string pyval))
    (d : gmap string pyval) :
  get_default_cfg cfg = Ok d → get_default_cfg (Some d) = Ok d.
Proof.
  intros Hd. pose proof (get_default_cfg_dom _ _ Hd) as Hdom.
  rewrite get_default_cfg_unfold. simpl. rewrite Hdom.
  rewrite decide_True by (apply difference_diag_L). f_equal.
  apply map_eq. intros k. rewrite lookup_union.
  destruct (d !! k) as [v|] eqn:Hk; [by destruct (default_defaults !! k)|].
  apply not_elem_of_dom in Hk. rewrite Hdom, <- dom_default_defaults in Hk.
  apply not_elem_of_dom in Hk. by rewrite Hk.
Qed.


Lemma get_default_cfg_idempotent_witness :
  get_default_cfg (Some ({[ "split" := VStr ";" ]} ∪ default_defaults))
  = Ok ({[ "split" := VStr ";" ]} ∪ default_defaults).
Proof.
  apply (get_default_cfg_idempotent (Some {[ "split" := VStr ";" ]})).
  vm_compute; reflexivity.
Defined.

(** X5. Resolving a resolved column configuration again against the same
    defaults gives it back, provided its [clientvalue] was checked: the
    column configuration had one of its own, or that of the defaults is
    well formed. *)
Theorem get_column_config_idempotent (raw : option (gmap string pyval))
    (d c rc : gmap string pyval) :
  get_default_cfg raw = Ok d →
  get_column_config d c = Ok rc →
  is_Some (c !! "clientvalue") ∨ well_formed_clientvalue d →
  get_column_config d rc = Ok rc.
Proof.
  intros Hd Hrc Hcv. pose proof (get_default_cfg_dom _ _ Hd) as Hdom.
  unfold get_column_config in Hrc.
  destruct (validate_column_config c) as [[]|] eqn:Hv; simpl in Hrc; [|done].
  injection Hrc as <-.
  pose proof (resolved_name c d Hv) as Hname.
  apply validate_column_config_Ok in Hv as ((name & Hn & Ht) & Hsub & Hwf).
  assert (validate_column_config (c ∪ d) = Ok tt) as Hv'.
  { apply validate_column_config_Ok. split; [|split].
    - exists name. by rewrite Hname.
    - rewrite dom_union_L, Hdom. apply union_subseteq.
      split; [done|apply recognized_allowed].
    - unfold well_formed_clientvalue in *. rewrite lookup_union.
      destruct (c !! "clientvalue") as [cv|] eqn:Hc.
      + by destruct (d !! "clientvalue").
      + destruct Hcv as [[? ?]|Hwd]; [done|]. by destruct (d !! "clientvalue"). }
  unfold get_column_config. rewrite Hv'. simpl. f_equal.
  by rewrite <- map_union_assoc, map_union_idemp.
Qed.


Lemma get_column_config_idempotent_witness :
  get_column_config default_defaults
    ({[ "name" := VStr "A"; "visible" := VBool false ]} ∪ default_defaults)
  = Ok ({[ "name" := VStr "A"; "visible" := VBool false ]} ∪ default_defaults).
Proof.
  apply (get_column_config_idempotent None default_defaults
           {[ "name" := VStr "A"; "visible" := VBool false ]}).
  - reflexivity.
  - vm_compute; reflexivity.
  - right. exists "". split; reflexivity.
Defined.

Lemma split_go_nonempty (sep : string) (s : string) (skip : nat) :
  split_go sep skip s ≠ [].
Proof.
  revert skip. induction s as [|c s IH]; intros skip; simpl; [done|].
  destruct skip as [|k]; [|apply IH].
  destruct (strip_prefix sep (String c s)); [done|].
  by destruct (split_go sep 0 s).
Qed.

Lemma transform1_unfold (subx : string → result (string → result string))
    (value : string) (cfg : gmap string pyval) :
  transform1 subx value cfg =
    (key <- transform1_key cfg ;;
     values <- split_values value cfg ;;
     values <- match cfg !! "clientvalue" with
               | Some cv => comprehension (fun v => valuesub subx v cv) values
               | None => Ok values
               end ;;
     Ok (key, values)).
Proof. reflexivity. Qed.

(** The [split] step fails only on a truthy separator that is not a
    string; otherwise it gives at least one value, and values without a
    backslash for a value without one. *)
Lemma split_values_cases (value : string) (cfg : gmap string pyval) :
  split_values value cfg = Raise TypeError
  ∨ ∃ v vs, split_values value cfg = Ok (v :: vs)
      ∧ (literal_template value = true →
         Forall (fun x => literal_template x = true) (v :: vs)).
Proof.
  unfold split_values.
  destruct (cfg !! "split") as [sp|]; [|right; exists value, []; split; [done|]; by repeat constructor].
  destruct (truthy sp); [|right; exists value, []; split; [done|]; by repeat constructor].
  destruct sp as [| | |sep]; simpl; try by left.
  right. unfold split.
  destruct (split_go sep 0 value) as [|p ps] eqn:Hs; [by apply split_go_nonempty in Hs|].
  exists (strip p), (map strip ps). split; [done|].
  intros Hlit. pose proof (literal_template_split_go sep value Hlit 0%nat) as Hall.
  rewrite Hs in Hall. change (Forall (fun x => literal_template x = true) (map strip (p :: ps))).
  apply Forall_fmap. eapply Forall_impl; [exact Hall|].
  intros piece. apply literal_template_strip.
Qed.

(** X6. The [clientvalue] of the defaults is never checked: whatever
    value the defaults give it, a valid column configuration without a
    [clientvalue] of its own is resolved and carries that value. When the
    value is not a string, [transform1] raises a type error for every cell
    without a backslash. *)
Theorem default_clientvalue_unchecked (subx : string → result (string → result string))
    (raw c : gmap string pyval) (cv : pyval) :
  dom raw ⊆ recognized →
  raw !! "clientvalue" = Some cv →
  validate_column_config c = Ok tt →
  c !! "clientvalue" = None →
  ∃ d rc, get_default_cfg (Some raw) = Ok d
    ∧ get_column_config d c = Ok rc
    ∧ rc !! "clientvalue" = Some cv
    ∧ ((∀ template, cv ≠ VStr template) →
       ∀ value, literal_template value = true →
         transform1 subx value rc = Raise TypeError).
Proof.
  intros Hsub Hcv Hv Hc.
  exists (raw ∪ default_defaults), (c ∪ (raw ∪ default_defaults)).
  assert ((c ∪ (raw ∪ default_defaults)) !! "clientvalue" = Some cv) as Hrc.
  { rewrite lookup_union_r by done. by apply lookup_union_Some_l. }
  split; [|split; [|split]].
  - rewrite get_default_cfg_unfold. simpl.
    rewrite decide_True; [done|].
    apply set_eq. intros k. rewrite elem_of_difference.
    split; [intros [Hk Hn]; by apply Hsub in Hk|by intros ?%not_elem_of_empty].
  - unfold get_column_config. by rewrite Hv.
  - done.
  - intros Hnot value Hlit. rewrite transform1_unfold, Hrc.
    pose proof (resolved_name c (raw ∪ default_defaults) Hv) as Hname.
    apply validate_column_config_Ok in Hv as ((name & Hn & _) & _).
    rewrite Hn in Hname. rewrite (transform1_key_Some _ _ Hname). simpl.
    destruct (split_values_cases value (c ∪ (raw ∪ default_defaults)))
      as [->|(v & vs & -> & Hall)]; [done|].
    simpl. specialize (Hall Hlit). apply Forall_cons in Hall as [Hv' _].
    unfold valuesub, re_sub_value. rewrite Hv'. simpl.
    destruct cv as [| | |template]; try done. by destruct (Hnot template).
Qed.

(** A template that keeps a foreign placeholder, and one that is not a
    string, both pass as defaults. *)
Lemma default_clientvalue_unchecked_witness :
  (∃ d rc, get_default_cfg (Some {[ "clientvalue" := VStr "{{ other }}" ]}) = Ok d
     ∧ get_column_config d {[ "name" := VStr "A" ]} = Ok rc
     ∧ rc !! "clientvalue" = Some (VStr "{{ other }}"))
  ∧ (∃ d rc, get_default_cfg (Some {[ "clientvalue" := VBool true ]}) = Ok d
       ∧ get_column_config d {[ "name" := VStr "A" ]} = Ok rc
       ∧ transform1 (fun _ => Raise ReError) "v" rc = Raise TypeError).
Proof.
  split.
  - destruct (default_clientvalue_unchecked (fun _ => Raise ReError)
                {[ "clientvalue" := VStr "{{ other }}" ]} {[ "name" := VStr "A" ]}
                (VStr "{{ other }}")) as (d & rc & Hd & Hrc & Hcv & _).
    + compute_done.
    + reflexivity.
    + reflexivity.
    + reflexivity.
    + exists d, rc. by repeat split.
  - destruct (default_clientvalue_unchecked (fun _ => Raise ReError)
                {[ "clientvalue" := VBool true ]} {[ "name" := VStr "A" ]}
                (VBool true)) as (d & rc & Hd & Hrc & _ & Hty).
    + compute_done.
    + reflexivity.
    + reflexivity.
    + reflexivity.
    + exists d, rc. split; [done|]. split; [done|].
      apply Hty; [discriminate|reflexivity].
Defined.

(** ** Constructing the transformer *)

Lemma output_config_matched (headers : list string) (d c : gmap string pyval) :
  validate_column_config c = Ok tt → matched headers c →
  ∃ i, (name <- cfg_getitem (c ∪ d) "name" ;;
        i <- getitem (header_index_map headers) name ;;
        Ok (c ∪ d, i)) = Ok (c ∪ d, i).
Proof.
  intros Hv (name & Hname & Hin).
  unfold cfg_getitem. rewrite (resolved_name c d Hv), Hname. simpl.
  apply header_index_map_is_Some in Hin as [i Hi]. rewrite Hi. simpl. eauto.
Qed.

Lemma output_config_Raise (headers : list string) (d c : gmap string pyval) (e : exn) :
  validate_column_config c = Ok tt →
  (name <- cfg_getitem (c ∪ d) "name" ;;
   i <- getitem (header_index_map headers) name ;;
   Ok (c ∪ d, i)) = Raise e →
  ∃ name, c !! "name" = Some name ∧ e = KeyError name ∧ unmatched headers c.
Proof.
  intros Hv. unfold cfg_getitem. rewrite (resolved_name c d Hv).
  apply validate_column_config_Ok in Hv as ((name & Hn & _) & _).
  rewrite Hn. simpl. intros Hr. exists name. split; [done|].
  unfold getitem in Hr. destruct name as [| | |nm]; simpl in Hr.
  1-3: injection Hr as <-; split; [done|]; intros nm' Hnm'; congruence.
  destruct (header_index_map headers !! nm) as [j|] eqn:Hj; simpl in Hr; [done|].
  injection Hr as <-. split; [done|]. intros nm' Hnm' Hin.
  rewrite Hn in Hnm'. injection Hnm' as <-.
  apply header_index_map_is_Some in Hin. rewrite Hj in Hin. by destruct Hin.
Qed.

(** X7. The row transformer is built exactly when the defaults are
    valid, every column configuration is valid, and the name of every
    column configuration is one of the headers. *)
Theorem transformer_init_succeeds_iff (headers : list string)
    (default_cfg : option (gmap string pyval)) (cfgs : list (gmap string pyval)) :
  (∃ tr, KeyValueListTransformer.init headers default_cfg cfgs = Ok tr) ↔
    (∃ d, get_default_cfg default_cfg = Ok d)
    ∧ Forall (fun c => validate_column_config c = Ok tt) cfgs
    ∧ Forall (matched headers) cfgs.
Proof.
  split.
  - intros [tr Hinit].
    pose proof (init_output_configs _ _ _ _ Hinit) as Hocs.
    apply transformer_init_Ok in Hinit as (Hd & Hcs & _ & _).
    split; [eauto|]. split.
    + eapply Forall2_Forall_l; [exact Hcs|]. apply Forall_true. by intros c rc [? _].
    + eapply Forall2_Forall_l; [exact Hocs|]. apply Forall_true.
      intros c ci (_ & name & Hname & Hh). exists name. split; [done|].
      by eapply list_elem_of_lookup_2.
  - intros ([d Hd] & Hvalid & Hmatched).
    unfold KeyValueListTransformer.init.
    rewrite (configuration_init_success _ _ d Hd Hvalid). simpl.
    destruct (comprehension_total
      (fun cfg => name <- cfg_getitem cfg "name" ;;
                  i <- getitem (header_index_map headers) name ;;
                  Ok (cfg, i))
      (map (fun c => c ∪ d) cfgs)) as [ocs Hocs].
    { apply Forall_fmap. rewrite Forall_forall in Hvalid.
      rewrite Forall_forall in Hmatched. apply Forall_forall. intros c Hin. simpl.
      destruct (output_config_matched headers d c (Hvalid c Hin) (Hmatched c Hin))
        as [i Hi]. eauto. }
    rewrite Hocs. simpl. eauto.
Qed.


Lemma transformer_init_succeeds_iff_witness :
  ∃ tr, KeyValueListTransformer.init ["A"; "B"] None
          [ {[ "name" := VStr "B" ]}; {[ "name" := VStr "A" ]} ] = Ok tr.
Proof.
  apply (proj2 (transformer_init_succeeds_iff ["A"; "B"] None _)).
  split; [by exists default_defaults|]. split.
  - repeat constructor.
  - constructor; [|constructor; [|constructor]].
    + exists "B". split; [reflexivity|]. right. by left.
    + exists "A". split; [reflexivity|]. by left.
Defined.

(** X8. When the construction of the row transformer ends in a
    [KeyError], the defaults and all column configurations are valid, and
    the key is the name of the first column configuration, in the order
    given, whose name is not a header. *)
Theorem transformer_init_KeyError (headers : list string)
    (default_cfg : option (gmap string pyval)) (cfgs : list (gmap string pyval))
    (k : pyval) :
  KeyValueListTransformer.init headers default_cfg cfgs = Raise (KeyError k) ↔
    (∃ d, get_default_cfg default_cfg = Ok d)
    ∧ Forall (fun c => validate_column_config c = Ok tt) cfgs
    ∧ ∃ before c after,
        cfgs = (before ++ c :: after)%list
        ∧ Forall (matched headers) before
        ∧ c !! "name" = Some k ∧ unmatched headers c.
Proof.
  split.
  - intros Hinit.
    destruct (BulkAnnotationConfiguration.init default_cfg cfgs) as [conf|e] eqn:Hconf.
    + pose proof Hconf as [Hd Hcs]%configuration_init_Ok.
      assert (Forall (fun c => validate_column_config c = Ok tt) cfgs) as Hvalid.
      { eapply Forall2_Forall_l; [exact Hcs|]. apply Forall_true. by intros c rc [? _]. }
      split; [eauto|]. split; [done|].
      unfold KeyValueListTransformer.init in Hinit.
      rewrite (configuration_init_success _ _ _ Hd Hvalid) in Hinit. simpl in Hinit.
      destruct (comprehension _ (map _ cfgs)) as [ocs|e] eqn:Hocs; simpl in Hinit; [done|].
      injection Hinit as ->.
      apply comprehension_Raise_split in Hocs as (before & rc & after & Heq & Hb & Hrc).
      apply fmap_app_inv in Heq as (before' & rest & -> & Hrest & ->).
      symmetry in Hrest. apply fmap_cons_inv in Hrest as (c & after' & -> & -> & ->).
      apply Forall_app in Hvalid as [Hvb Hvc]. apply Forall_cons in Hvc as [Hvc _].
      exists before', c, after'. split; [done|].
      apply output_config_Raise in Hrc as (name & Hname & [= ->] & Hun); [|done].
      split; [|done].
      apply (proj1 (Forall_fmap _ _ _)) in Hb. rewrite Forall_forall in Hb.
      rewrite Forall_forall in Hvb. apply Forall_forall. intros c' Hin. specialize (Hb c' Hin) as [[rc' i] Hi].
      simpl in Hi. unfold cfg_getitem in Hi.
      rewrite (resolved_name c' _ (Hvb c' Hin)) in Hi.
      destruct (c' !! "name") as [[| | |nm]|] eqn:Hn; simpl in Hi; try done.
      destruct (header_index_map headers !! nm) as [j|] eqn:Hj; simpl in Hi; [|done].
      exists nm. split; [done|]. apply header_index_map_is_Some. eauto.
    + unfold KeyValueListTransformer.init in Hinit. rewrite Hconf in Hinit.
      simpl in Hinit. injection Hinit as ->.
      apply configuration_init_first_error_aux in Hconf as [[p ?]|?]; done.
  - intros ([d Hd] & Hvalid & before & c & after & -> & Hb & Hname & Hun).
    unfold KeyValueListTransformer.init.
    rewrite (configuration_init_success _ _ d Hd Hvalid). simpl.
    rewrite map_app. simpl.
    apply Forall_app in Hvalid as [Hvb Hvc]. apply Forall_cons in Hvc as [Hvc _].
    erewrite comprehension_app_Raise; [done| |].
    + apply Forall_fmap. rewrite Forall_forall in Hvb.
      rewrite Forall_forall in Hb. apply Forall_forall. intros c' Hin. simpl.
      destruct (output_config_matched headers d c' (Hvb c' Hin) (Hb c' Hin)) as [i Hi].
      eauto.
    + unfold cfg_getitem. rewrite (resolved_name c d Hvc), Hname. simpl.
      unfold getitem. destruct k as [| | |nm]; try done.
      destruct (header_index_map headers !! nm) as [j|] eqn:Hj; [|done].
      exfalso. apply (Hun nm Hname). apply header_index_map_is_Some. eauto.
Qed.


(** Neither ["Z"] nor ["Y"] is a header; the error names ["Z"]. *)
Lemma transformer_init_KeyError_witness :
  KeyValueListTransformer.init ["A"] None
    [ {[ "name" := VStr "A" ]}; {[ "name" := VStr "Z" ]}; {[ "name" := VStr "Y" ]} ]
  = Raise (KeyError (VStr "Z")).
Proof.
  apply (proj2 (transformer_init_KeyError ["A"] None _ _)).
  split; [by exists default_defaults|]. split; [repeat constructor|].
  exists [ {[ "name" := VStr "A" ]} ], {[ "name" := VStr "Z" ]}, [ {[ "name" := VStr "Y" ]} ].
  split; [reflexivity|]. split; [|split].
  - constructor; [|constructor]. exists "A". split; [reflexivity|]. by left.
  - reflexivity.
  - intros name Hname. vm_compute in Hname. injection Hname as <-.
    intros Hin. apply elem_of_cons in Hin as [Hin|Hin]; [discriminate|].
    by apply elem_of_nil in Hin.
Defined.

(** ** Transforming rows *)

(** X9. Cells of columns that no column configuration names do not
    influence the result: two rows of the same length that agree on every
    configured column are transformed alike. *)
Theorem transform_ignores_unconfigured_columns
    (subx : string → result (string → result string))
    (tr : KeyValueListTransformer.t) (row row' : list string) :
  length row = length row' →
  Forall (fun ci : gmap string pyval * nat => row !! ci.2 = row' !! ci.2)
    (output_configs tr) →
  transform subx tr row = transform subx tr row'.
Proof.
  intros Hlen Hagree. unfold transform. rewrite Hlen.
  case_decide; [|done]. apply comprehension_same.
  eapply Forall_impl; [exact Hagree|]. intros ci Hci. simpl in *.
  unfold row_getitem. by rewrite Hci.
Qed.

(** Only column ["B"] is configured; the rows differ in column ["A"]. *)
Lemma transform_ignores_unconfigured_columns_witness :
  ∃ tr, KeyValueListTransformer.init ["A"; "B"] None [ {[ "name" := VStr "B" ]} ] = Ok tr
    ∧ transform (fun _ => Raise ReError) tr ["1"; "x"]
      = transform (fun _ => Raise ReError) tr ["2"; "x"].
Proof.
  eexists. split; [vm_compute; reflexivity|].
  apply transform_ignores_unconfigured_columns; [reflexivity|].
  repeat constructor.
Defined.

Lemma validate_bare_config (h : string) :
  h ≠ "" → validate_column_config (bare_config h) = Ok tt.
Proof.
  intros Hh. apply validate_column_config_Ok. unfold bare_config. split; [|split].
  - exists (VStr h). split; [apply lookup_singleton_eq|]. simpl.
    apply negb_true_iff. by apply String.eqb_neq.
  - rewrite dom_singleton_L. apply singleton_subseteq_l. compute_done.
  - unfold well_formed_clientvalue. by rewrite lookup_singleton_ne.
Qed.

Lemma get_default_cfg_None : get_default_cfg None = Ok default_defaults.
Proof. reflexivity. Qed.

Lemma bare_config_lookup (h k : string) :
  k ≠ "name" → (bare_config h ∪ default_defaults) !! k = default_defaults !! k.
Proof.
  intros Hk. apply lookup_union_r. unfold bare_config. by apply lookup_singleton_ne.
Qed.

Lemma transform1_bare_config (subx : string → result (string → result string))
    (h v : string) :
  literal_template v = true →
  transform1 subx v (bare_config h ∪ default_defaults) = Ok (VStr h, [v]).
Proof.
  intros Hv. rewrite transform1_unfold.
  assert ((bare_config h ∪ default_defaults) !! "name" = Some (VStr h)) as Hname.
  { apply lookup_union_Some_l. apply lookup_singleton_eq. }
  rewrite (transform1_key_Some _ _ Hname). unfold split_values.
  rewrite !bare_config_lookup by done.
  change (default_defaults !! "clientname") with (@None pyval).
  change (default_defaults !! "visible") with (Some (VBool true)).
  change (default_defaults !! "split") with (Some (VBool false)).
  change (default_defaults !! "clientvalue") with (Some (VStr "{{ value }}")).
  simpl. by rewrite (valuesub_identity subx v Hv).
Qed.

(** X10. Over pairwise distinct, non-empty headers, the row transformer
    configured with nothing but the name of every header, in header order,
    does to a row without backslashes what the pass-through transformer
    does, except that every value comes wrapped in a list. *)
Theorem bare_configs_pass_through (subx : string → result (string → result string))
    (headers row : list string) :
  NoDup headers →
  Forall (fun h => h ≠ "") headers →
  length row = length headers →
  Forall (fun v => literal_template v = true) row →
  ∃ tr kvs,
    KeyValueListTransformer.init headers None (map bare_config headers) = Ok tr
    ∧ KeyValueListPassThrough.transform_row
        (KeyValueListPassThrough.init headers None None) row = Ok kvs
    ∧ transform subx tr row
      = Ok (map (fun hv : string * string => (VStr hv.1, [hv.2])) kvs).
Proof.
  intros Hnd Hne Hlen Hlit.
  assert (Forall (fun c => validate_column_config c = Ok tt) (map bare_config headers))
    as Hvalid.
  { apply Forall_fmap. eapply Forall_impl; [exact Hne|]. apply validate_bare_config. }
  destruct (KeyValueListTransformer.init headers None (map bare_config headers))
    as [tr|e] eqn:Hinit.
  - exists tr, (zip headers row). split; [done|]. split.
    { unfold KeyValueListPassThrough.transform_row. simpl. by rewrite decide_True. }
    pose proof (init_output_configs _ _ _ _ Hinit) as Hocs.
    pose proof (transformer_init_Ok _ _ _ _ Hinit) as (Hd & _ & _ & _).
    rewrite get_default_cfg_None in Hd. injection Hd as Hd.
    rewrite (transform_unfold _ _ _ _ _ _ Hinit).
    apply distinct_eq_NoDup in Hnd as Hdist. rewrite Hdist, decide_True by done.
    apply comprehension_Forall2. apply Forall2_same_length_lookup_2.
    + rewrite length_fmap, length_zip_with, <- (Forall2_length _ _ _ Hocs), length_fmap. lia.
    + intros i [rc j] kv Hci Hkv.
      destruct (Forall2_lookup_r _ _ _ _ _ Hocs Hci) as (c & Hc & Hrc & name & Hname & Hj).
      simpl in *. rewrite list_lookup_fmap in Hc.
      destruct (headers !! i) as [h|] eqn:Hh; simpl in Hc; [|done].
      injection Hc as <-. unfold bare_config in Hname.
      rewrite lookup_singleton_eq in Hname. injection Hname as <-.
      pose proof (NoDup_lookup _ _ _ _ Hnd Hh Hj) as <-.
      rewrite list_lookup_fmap in Hkv.
      destruct (zip headers row !! i) as [[h' v]|] eqn:Hz; simpl in Hkv; [|done].
      injection Hkv as <-. apply lookup_zip_with_Some in Hz as (h'' & v' & [= <- <-] & Hh' & Hv).
      rewrite Hh in Hh'. injection Hh' as <-.
      unfold row_getitem. rewrite Hv. simpl. subst rc. rewrite <- Hd.
      apply transform1_bare_config.
      rewrite Forall_forall in Hlit. apply Hlit. by eapply list_elem_of_lookup_2.
  - exfalso.
    unfold KeyValueListTransformer.init in Hinit.
    rewrite (configuration_init_success _ _ _ get_default_cfg_None Hvalid) in Hinit.
    simpl in Hinit.
    destruct (comprehension_total
      (fun cfg => name <- cfg_getitem cfg "name" ;;
                  i <- getitem (header_index_map headers) name ;;
                  Ok (cfg, i))
      (map (fun c => c ∪ default_defaults) (map bare_config headers))) as [ocs Hocs].
    { apply Forall_fmap, Forall_fmap. apply Forall_forall. intros h Hin. simpl.
      rewrite Forall_forall in Hne.
      destruct (output_config_matched headers default_defaults (bare_config h)) as [i Hi].
      - by apply validate_bare_config, Hne.
      - exists h. split; [apply lookup_singleton_eq|done].
      - eauto. }
    rewrite Hocs in Hinit. done.
Qed.

Lemma bare_configs_pass_through_witness :
  ∃ tr kvs,
    KeyValueListTransformer.init ["A"; "B"] None (map bare_config ["A"; "B"]) = Ok tr
    ∧ KeyValueListPassThrough.transform_row
        (KeyValueListPassThrough.init ["A"; "B"] None None) ["1"; "2"] = Ok kvs
    ∧ transform (fun _ => Raise ReError) tr ["1"; "2"]
      = Ok (map (fun hv : string * string => (VStr hv.1, [hv.2])) kvs).
Proof.
  apply bare_configs_pass_through.
  - compute_done.
  - repeat constructor; discriminate.
  - reflexivity.
  - repeat constructor.
Defined.

Lemma valuesub_comprehension_length (subx : string → result (string → result string))
    (cfg : gmap string pyval) (vals values : list string) :
  match cfg !! "clientvalue" with
  | Some cv => comprehension (fun v => valuesub subx v cv) vals
  | None => Ok vals
  end = Ok values →
  length values = length vals.
Proof.
  destruct (cfg !! "clientvalue") as [cv|].
  - apply comprehension_length.
  - by intros [= ->].
Qed.

(** X11. [transform1] never returns an empty list of values. Without a
    [split] option, or with a falsy one (the empty string included, so
    that no empty separator ever reaches [str.split]), it returns exactly
    one value; with a separator it returns one value per piece. *)
Theorem transform1_values_count (subx : string → result (string → result string))
    (value : string) (cfg : gmap string pyval) (key : pyval) (values : list string) :
  transform1 subx value cfg = Ok (key, values) →
  values ≠ []
  ∧ ((∀ sp, cfg !! "split" = Some sp → truthy sp = false) → length values = 1%nat)
  ∧ (∀ sep, cfg !! "split" = Some (VStr sep) → sep ≠ "" →
       length values = length (split sep value)).
Proof.
  rewrite transform1_unfold.
  destruct (transform1_key cfg) as [k|]; simpl; [|done].
  destruct (split_values value cfg) as [vals|] eqn:Hs; simpl; [|done].
  destruct (match cfg !! "clientvalue" with Some _ => _ | None => _ end)
    as [values'|] eqn:Hc; simpl; [|done].
  intros [= -> ->]. apply valuesub_comprehension_length in Hc.
  split; [|split].
  - destruct (split_values_cases value cfg) as [Hr|(v & vs & Hv & _)]; [congruence|].
    rewrite Hs in Hv. injection Hv as ->. by destruct values.
  - intros Hfalsy. rewrite Hc. unfold split_values in Hs.
    destruct (cfg !! "split") as [sp|]; [|by injection Hs as <-].
    rewrite (Hfalsy sp eq_refl) in Hs. by injection Hs as <-.
  - intros sep Hsep Hne. rewrite Hc. unfold split_values in Hs. rewrite Hsep in Hs.
    simpl in Hs. assert (String.eqb sep "" = false) as Heq by (by apply String.eqb_neq).
    rewrite Heq in Hs. simpl in Hs. injection Hs as <-. by rewrite length_fmap.
Qed.

(** An empty separator leaves the value whole. *)
Lemma transform1_values_count_witness :
  let cfg : gmap string pyval := {[ "name" := VStr "x"; "split" := VStr "" ]} in
  transform1 (fun _ => Raise ReError) "a,b" cfg = Ok (VStr "x", ["a,b"])
  ∧ length ["a,b"] = 1%nat.
Proof.
  intros cfg. split; [reflexivity|].
  refine (proj1 (proj2 (transform1_values_count (fun _ => Raise ReError) "a,b" cfg
                          (VStr "x") ["a,b"] _)) _).
  - reflexivity.
  - intros sp Hsp. vm_compute in Hsp. injection Hsp as <-. reflexivity.
Defined.

(** ** Splitting and templates *)

Lemma lstrip_starts (s : string) : starts_with_space (lstrip s) = false.
Proof.
  induction s as [|c s IH]; simpl; [done|].
  destruct (is_space c) eqn:Hc; [done|]. simpl. by rewrite Hc.
Qed.

Lemma rstrip_starts (s : string) :
  starts_with_space s = false → starts_with_space (rstrip s) = false.
Proof.
  destruct s as [|c s]; simpl; [done|]. intros Hc.
  destruct (rstrip s); [by rewrite Hc|done].
Qed.

Lemma rstrip_ends (s : string) : ends_with_space (rstrip s) = false.
Proof.
  induction s as [|c s IH]; simpl; [done|].
  destruct (rstrip s) as [|a r].
  - destruct (is_space c) eqn:Hc; [done|]. simpl. by rewrite Hc.
  - exact IH.
Qed.

Lemma strip_trimmed (s : string) :
  starts_with_space (strip s) = false ∧ ends_with_space (strip s) = false.
Proof.
  unfold strip. split; [apply rstrip_starts, lstrip_starts|apply rstrip_ends].
Qed.

Lemma valuesub_identity_all (subx : string → result (string → result string))
    (vals : list string) :
  Forall (fun v => literal_template v = true) vals →
  comprehension (fun v => valuesub subx v (VStr "{{ value }}")) vals = Ok vals.
Proof.
  induction 1 as [|v vals' Hv _ IH]; simpl; [done|].
  by rewrite (valuesub_identity subx v Hv), IH.
Qed.

(** X12. With a separator and no template, or the identity template and
    a value without a backslash, the values [transform1] returns are the
    pieces of the value with their surrounding whitespace removed: none of
    them begins or ends with a whitespace character. *)
Theorem transform1_split_values_trimmed
    (subx : string → result (string → result string))
    (value sep : string) (cfg : gmap string pyval) (name : pyval) :
  cfg !! "name" = Some name →
  cfg !! "split" = Some (VStr sep) → sep ≠ "" →
  cfg !! "clientvalue" = None
    ∨ (cfg !! "clientvalue" = Some (VStr "{{ value }}") ∧ literal_template value = true) →
  ∃ key,
    transform1 subx value cfg = Ok (key, map strip (split sep value))
    ∧ Forall (fun v => starts_with_space v = false ∧ ends_with_space v = false)
        (map strip (split sep value)).
Proof.
  intros Hname Hsplit Hsep Hcv. rewrite transform1_unfold.
  rewrite (transform1_key_Some _ _ Hname). unfold split_values. rewrite Hsplit. simpl.
  assert (String.eqb sep "" = false) as -> by (by apply String.eqb_neq). simpl.
  eexists. split.
  - destruct Hcv as [->|[-> Hlit]]; [done|].
    rewrite valuesub_identity_all; [done|].
    apply Forall_fmap. eapply Forall_impl; [by apply literal_template_split_go|].
    intros piece. apply literal_template_strip.
  - apply Forall_fmap, Forall_true. intros piece. apply strip_trimmed.
Qed.

Lemma transform1_split_values_trimmed_witness :
  ∃ key,
    transform1 (fun _ => Raise ReError) " x ;y ; z"
      {[ "name" := VStr "n"; "split" := VStr ";" ]}
    = Ok (key, map strip (split ";" " x ;y ; z"))
    ∧ Forall (fun v => starts_with_space v = false ∧ ends_with_space v = false)
        (map strip (split ";" " x ;y ; z")).
Proof.
  apply (transform1_split_values_trimmed _ _ _ _ (VStr "n")).
  - reflexivity.
  - reflexivity.
  - discriminate.
  - left. reflexivity.
Defined.

Lemma brace_free_cons (c : ascii) (s : string) :
  brace_free (String c s) = true ↔ c ≠ "{"%char ∧ brace_free s = true.
Proof.
  unfold brace_free. simpl. rewrite andb_true_iff, negb_true_iff.
  by rewrite Ascii.eqb_neq.
Qed.

Lemma strip_prefix_braces_None (c : ascii) (s : string) :
  c ≠ "{"%char → strip_prefix "{{" (String c s) = None.
Proof.
  intros Hc. destruct (strip_prefix "{{" (String c s)) as [r|] eqn:Hr; [|done].
  apply strip_prefix_Some in Hr. injection Hr as -> _. done.
Qed.

Lemma match_value_no_brace (c : ascii) (s : string) :
  c ≠ "{"%char → match_value (String c s) = None.
Proof. intros Hc. unfold match_value. by rewrite strip_prefix_braces_None. Qed.

Lemma match_token_no_brace (c : ascii) (s : string) :
  c ≠ "{"%char → match_token (String c s) = None.
Proof. intros Hc. unfold match_token. by rewrite strip_prefix_braces_None. Qed.

Lemma sub_value_go_cons_None (filter : string → result string) (c : ascii) (s : string) :
  match_value (String c s) = None →
  sub_value_go filter 0 (String c s) =
    (rest <- sub_value_go filter 0 s ;; Ok (String c rest)).
Proof. intros Hm. simpl. by rewrite Hm. Qed.

Lemma sub_value_go_brace_free (filter : string → result string) (s : string) :
  brace_free s = true → sub_value_go filter 0 s = Ok s.
Proof.
  induction s as [|c s IH]; [done|]. intros [Hc Hs]%brace_free_cons.
  rewrite sub_value_go_cons_None by (by apply match_value_no_brace).
  by rewrite (IH Hs).
Qed.

Lemma search_token_brace_free (s : string) :
  brace_free s = true → search_token s = None.
Proof.
  induction s as [|c s IH]; [done|]. intros [Hc Hs]%brace_free_cons.
  rewrite search_token_cons, match_token_no_brace by done. by apply IH.
Qed.

Lemma brace_free_append (a b : string) :
  brace_free a = true → brace_free b = true → brace_free (a +:+ b) = true.
Proof.
  intros Ha Hb. induction a as [|c a IH]; [done|].
  apply brace_free_cons in Ha as [Hc Ha]. rewrite append_cons.
  apply brace_free_cons. auto.
Qed.

Lemma drop_chars_append (m rest : string) :
  drop_chars (String.length m) (m +:+ rest) = rest.
Proof.
  induction m as [|c m IH]; [by destruct rest|]. rewrite append_cons. simpl. exact IH.
Qed.

Lemma sub_value_go_cons_Some (filter : string → result string) (c : ascii)
    (s : string) (n : nat) :
  match_value (String c s) = Some n →
  sub_value_go filter 0 (String c s) =
    (r <- filter (substring 0 n (String c s)) ;;
     rest <- sub_value_go filter 0 (drop_chars (n - 1) s) ;;
     Ok (r +:+ rest)).
Proof.
  intros Hm. rewrite <- sub_value_go_skip.
  change (sub_value_go filter 0 (String c s)) with
    (match match_value (String c s) with
     | Some n =>
         r <- filter (substring 0 n (String c s)) ;;
         rest <- sub_value_go filter (n - 1) s ;;
         Ok (r +:+ rest)
     | None => rest <- sub_value_go filter 0 s ;; Ok (String c rest)
     end).
  by rewrite Hm.
Qed.

(** One placeholder between a prefix and a suffix without braces. *)
Lemma sub_value_in_place (r pre m post : string) :
  brace_free pre = true → matches value_pattern m → brace_free post = true →
  sub_value (fun _ => Ok r) (pre +:+ m +:+ post) = Ok (pre +:+ r +:+ post).
Proof.
  intros Hpre Hm Hpost. unfold sub_value.
  induction pre as [|c pre IH].
  - rewrite !append_nil_l.
    assert (match_value (m +:+ post) = Some (String.length m)) as Hmatch.
    { apply match_value_spec. by exists m, post. }
    pose proof (match_value_pos _ _ Hmatch) as Hlen.
    destruct m as [|c m]; [simpl in Hlen; lia|].
    rewrite append_cons in *. rewrite (sub_value_go_cons_Some _ _ _ _ Hmatch).
    replace (drop_chars (String.length (String c m) - 1) (m +:+ post)) with post.
    + rewrite (sub_value_go_brace_free _ post Hpost). reflexivity.
    + simpl. rewrite Nat.sub_0_r. by rewrite drop_chars_append.
  - apply brace_free_cons in Hpre as [Hc Hpre]. rewrite !append_cons.
    rewrite sub_value_go_cons_None by (by apply match_value_no_brace).
    by rewrite (IH Hpre).
Qed.

(** X13. A [clientvalue] without any opening brace passes validation
    and discards the cell: every value [transform1] returns is the
    [clientvalue] itself. *)
Theorem brace_free_clientvalue_constant
    (subx : string → result (string → result string))
    (cfg : gmap string pyval) (name : pyval) (cv : string) :
  cfg !! "name" = Some name → truthy name = true → dom cfg ⊆ allowed →
  cfg !! "clientvalue" = Some (VStr cv) → brace_free cv = true →
  validate_column_config cfg = Ok tt
  ∧ ∀ value, literal_template value = true → usable_split cfg →
      ∃ key values, transform1 subx value cfg = Ok (key, values)
        ∧ values ≠ [] ∧ Forall (fun v => v = cv) values.
Proof.
  intros Hname Ht Hkeys Hcv Hbf. split.
  - apply validate_column_config_Ok. split; [eauto|]. split; [done|].
    unfold well_formed_clientvalue. rewrite Hcv. exists cv.
    split; [by apply sub_value_go_brace_free|by apply search_token_brace_free].
  - intros value Hlit Hsplit. rewrite transform1_unfold, Hcv.
    rewrite (transform1_key_Some _ _ Hname). simpl.
    destruct (split_values_cases value cfg) as [Hr|(v & vs & Hs & Hall)].
    + exfalso. unfold split_values in Hr.
      destruct (cfg !! "split") as [sp|] eqn:Hsp; [|done].
      destruct (truthy sp) eqn:Htsp; [|done].
      by destruct (Hsplit sp Hsp Htsp) as [sep ->].
    + specialize (Hall Hlit).
      assert (comprehension (fun v0 => valuesub subx v0 (VStr cv)) (v :: vs)
              = Ok (map (fun _ => cv) (v :: vs))) as Hcomp.
      { apply comprehension_Forall2. apply Forall2_fmap_r, Forall_Forall2_diag.
        eapply Forall_impl; [exact Hall|]. intros x Hx. simpl.
        unfold valuesub, re_sub_value. rewrite Hx. simpl.
        by apply sub_value_go_brace_free. }
      rewrite Hs. cbn [bind]. rewrite Hcomp. cbn [bind].
      eexists _, _. split; [done|]. split; [done|].
      apply Forall_fmap, Forall_true. done.
Qed.

Lemma brace_free_clientvalue_constant_witness :
  let cfg : gmap string pyval :=
    {[ "name" := VStr "x"; "split" := VStr ","; "clientvalue" := VStr "yes" ]} in
  validate_column_config cfg = Ok tt
  ∧ ∃ key values, transform1 (fun _ => Raise ReError) "a,b" cfg = Ok (key, values)
      ∧ values ≠ [] ∧ Forall (fun v => v = "yes") values.
Proof.
  intros cfg.
  destruct (brace_free_clientvalue_constant (fun _ => Raise ReError) cfg (VStr "x") "yes")
    as [Hv Ht].
  - reflexivity.
  - reflexivity.
  - compute_done.
  - reflexivity.
  - reflexivity.
  - split; [exact Hv|]. apply Ht; [reflexivity|].
    intros sp Hsp Htr. vm_compute in Hsp. injection Hsp as <-. eauto.
Defined.

(** X14. A [clientvalue] made of a prefix without braces, one
    placeholder (with any whitespace around [value]) and a suffix without
    braces passes validation, and substituting a value without a backslash
    puts it between the prefix and the suffix; the value itself is not
    scanned for placeholders. *)
Theorem template_substitutes_in_place
    (subx : string → result (string → result string))
    (cfg : gmap string pyval) (name : pyval) (pre m post : string) :
  cfg !! "name" = Some name → truthy name = true → dom cfg ⊆ allowed →
  cfg !! "clientvalue" = Some (VStr (pre +:+ m +:+ post)) →
  brace_free pre = true → matches value_pattern m → brace_free post = true →
  validate_column_config cfg = Ok tt
  ∧ ∀ v, literal_template v = true →
      valuesub subx v (VStr (pre +:+ m +:+ post)) = Ok (pre +:+ v +:+ post).
Proof.
  intros Hname Ht Hkeys Hcv Hpre Hm Hpost. split.
  - apply validate_column_config_Ok. split; [eauto|]. split; [done|].
    unfold well_formed_clientvalue. rewrite Hcv. exists (pre +:+ "" +:+ post).
    split; [by apply sub_value_in_place|].
    apply search_token_brace_free. rewrite append_nil_l. by apply brace_free_append.
  - intros v Hv. unfold valuesub, re_sub_value. rewrite Hv. simpl.
    by apply sub_value_in_place.
Qed.

Lemma template_substitutes_in_place_witness :
  let cfg : gmap string pyval :=
    {[ "name" := VStr "x"; "clientvalue" := VStr "<{{  value }}>" ]} in
  validate_column_config cfg = Ok tt
  ∧ valuesub (fun _ => Raise ReError) "{{ value }}" (VStr ("<" +:+ "{{  value }}" +:+ ">"))
    = Ok ("<" +:+ "{{ value }}" +:+ ">").
Proof.
  intros cfg.
  destruct (template_substitutes_in_place (fun _ => Raise ReError) cfg (VStr "x")
              "<" "{{  value }}" ">") as [Hv Hs].
  - reflexivity.
  - reflexivity.
  - compute_done.
  - reflexivity.
  - reflexivity.
  - exists "  value }}". split; [reflexivity|].
    exists "  ", "value }}". split; [reflexivity|]. split; [reflexivity|].
    exists " }}". split; [reflexivity|].
    exists " ", "}}". split; [reflexivity|]. split; [reflexivity|].
    exists "". split; reflexivity.
  - reflexivity.
  - split; [exact Hv|]. apply Hs. reflexivity.
Defined.



(** ** The pass-through generator *)

Lemma transform_gen_cons (pt : KeyValueListPassThrough.t) (row : list string)
    (values : list (list string)) :
  KeyValueListPassThrough.transform_gen pt (row :: values) =
    match KeyValueListPassThrough.transform_row pt row with
    | Ok kvs =>
        let '(yielded, e) := KeyValueListPassThrough.transform_gen pt values in
        (kvs :: yielded, e)
    | Raise e => ([], KeyValueListPassThrough.Raised e)
    end.
Proof. reflexivity. Qed.

Lemma transform_row_unfold (headers : list string)
    (default_cfg : option (gmap string pyval))
    (column_cfgs : option (list (gmap string pyval))) (row : list string) :
  KeyValueListPassThrough.transform_row
    (KeyValueListPassThrough.init headers default_cfg column_cfgs) row =
    if decide (length row = length headers)
    then Ok (zip headers row) else Raise AssertionError.
Proof. reflexivity. Qed.

(** X16. The pass-through generator yields the zipped rows up to the
    first row whose length differs from the number of headers, where it
    ends with the assertion error; it ends normally exactly when there is
    no such row. *)
Theorem transform_gen_characterised (headers : list string)
    (default_cfg : option (gmap string pyval))
    (column_cfgs : option (list (gmap string pyval)))
    (values : list (list string)) :
  ∃ good rest,
    values = (good ++ rest)%list
    ∧ Forall (fun row : list string => length row = length headers) good
    ∧ (KeyValueListPassThrough.transform_gen
         (KeyValueListPassThrough.init headers default_cfg column_cfgs) values).1
      = map (zip headers) good
    ∧ ((rest = []
        ∧ (KeyValueListPassThrough.transform_gen
             (KeyValueListPassThrough.init headers default_cfg column_cfgs) values).2
          = KeyValueListPassThrough.StopIteration)
       ∨ (∃ bad rest', rest = bad :: rest' ∧ length bad ≠ length headers
          ∧ (KeyValueListPassThrough.transform_gen
               (KeyValueListPassThrough.init headers default_cfg column_cfgs) values).2
            = KeyValueListPassThrough.Raised AssertionError)).
Proof.
  induction values as [|row values (good & rest & -> & Hgood & Hys & Hend)].
  - exists [], []. repeat split; try done. by left.
  - rewrite transform_gen_cons, transform_row_unfold.
    destruct (decide (length row = length headers)) as [Hlen|Hlen].
    + exists (row :: good), rest.
      destruct (KeyValueListPassThrough.transform_gen _ (good ++ rest)) as [ys e].
      simpl in *. split; [done|]. split; [by constructor|]. split; [by rewrite Hys|].
      exact Hend.
    + exists [], (row :: good ++ rest)%list. simpl. repeat split; try done.
      right. eauto.
Qed.

(** ** Printing *)

Lemma print_rows_app_Raise (subx : string → result (string → result string))
    (tr : KeyValueListTransformer.t) (before : list (list string))
    (bad : list string) (after : list (list string)) (e : exn) (n : nat) :
  Forall (fun row => ∃ out, transform subx tr row = Ok out) before →
  transform subx tr bad = Raise e →
  print_rows subx tr n (before ++ bad :: after)
  = ((print_rows subx tr n before).1, Some e)
  ∧ (print_rows subx tr n before).2 = None.
Proof.
  intros Hbefore Hbad. revert n.
  induction Hbefore as [|row before' [out Hout] _ IH]; intros n; simpl.
  - by rewrite Hbad.
  - rewrite Hout. destruct (IH (S n)) as [-> Hnone].
    destruct (print_rows subx tr (S n) before') as [printed e']. simpl in *.
    by subst e'.
Qed.

(** X17. [print_kvs] transforms a row completely before it prints any of
    its lines: when a row cannot be transformed, the lines of the rows
    before it have been printed, none of the failing row or of a later row
    is, and the exception of that row ends the call. *)
Theorem print_kvs_stops_at_first_failure
    (subx : string → result (string → result string))
    (headers : list string) (default_cfg : option (gmap string pyval))
    (column_cfgs : list (gmap string pyval)) (tr : KeyValueListTransformer.t)
    (before : list (list string)) (bad : list string)
    (after : list (list string)) (e : exn) :
  KeyValueListTransformer.init headers default_cfg column_cfgs = Ok tr →
  Forall (fun row => ∃ out, transform subx tr row = Ok out) before →
  transform subx tr bad = Raise e →
  print_kvs subx headers (before ++ bad :: after) default_cfg column_cfgs
  = ((print_kvs subx headers before default_cfg column_cfgs).1, Some e)
  ∧ (print_kvs subx headers before default_cfg column_cfgs).2 = None.
Proof.
  intros Hinit Hbefore Hbad. unfold print_kvs. rewrite Hinit.
  by apply print_rows_app_Raise.
Qed.

(** The second row is too short: only the line of the first is printed. *)
Lemma print_kvs_stops_at_first_failure_witness :
  print_kvs (fun _ => Raise ReError) ["A"; "B"] [["1"; "2"]; ["3"]; ["4"; "5"]]
    None [ {[ "name" := VStr "B" ]} ]
  = ([" 0          B : 2"], Some AssertionError).
Proof.
  refine (eq_trans (proj1 (print_kvs_stops_at_first_failure (fun _ => Raise ReError)
              ["A"; "B"] None [ {[ "name" := VStr "B" ]} ] _
              [["1"; "2"]] ["3"] [["4"; "5"]] AssertionError _ _ _)) _).
  - vm_compute; reflexivity.
  - constructor; [|constructor]. eexists. vm_compute; reflexivity.
  - vm_compute; reflexivity.
  - vm_compute; reflexivity.
Defined.

Lemma length_row_lines (n : nat) (transformed : list (pyval * list string)) :
  length (row_lines n transformed)
  = sum_list (map (fun kvs : pyval * list string => length kvs.2) transformed).
Proof.
  unfold row_lines. induction transformed as [|kvs transformed IH]; simpl; [done|].
  by rewrite length_app, length_fmap, IH.
Qed.

Lemma print_rows_Ok (subx : string → result (string → result string))
    (tr : KeyValueListTransformer.t) (values : list (list string))
    (outs : list (list (pyval * list string))) (n : nat) :
  Forall2 (fun row out => transform subx tr row = Ok out) values outs →
  print_rows subx tr n values
  = (concat (imap (fun i out => row_lines (n + i) out) outs), None).
Proof.
  intros H. revert n.
  induction H as [|row out values' outs' Hout _ IH]; intros n; [done|].
  simpl print_rows. rewrite Hout, (IH (S n)). rewrite imap_cons. simpl concat.
  rewrite Nat.add_0_r. f_equal. f_equal. f_equal.
  apply imap_ext. intros i x _. simpl. f_equal. lia.
Qed.

Lemma length_all_row_lines (n : nat) (outs : list (list (pyval * list string))) :
  length (concat (imap (fun i out => row_lines (n + i) out) outs))
  = sum_list (map (fun out =>
      sum_list (map (fun kvs : pyval * list string => length kvs.2) out)) outs).
Proof.
  revert n. induction outs as [|out outs IH]; intros n; [done|].
  rewrite imap_cons. simpl concat. simpl map. simpl sum_list.
  rewrite length_app, length_row_lines. f_equal.
  rewrite <- (IH (S n)). f_equal. f_equal. apply imap_ext. intros i x _. simpl.
  f_equal. lia.
Qed.

(** X18. When every row is transformed, [print_kvs] ends without an
    exception and prints, row after row, one line for every value of every
    (key, values) pair of the transformed row, numbered with the position
    of the row, counting from zero. *)
Theorem print_kvs_prints_every_value
    (subx : string → result (string → result string))
    (headers : list string) (default_cfg : option (gmap string pyval))
    (column_cfgs : list (gmap string pyval)) (tr : KeyValueListTransformer.t)
    (values : list (list string)) (outs : list (list (pyval * list string))) :
  KeyValueListTransformer.init headers default_cfg column_cfgs = Ok tr →
  Forall2 (fun row out => transform subx tr row = Ok out) values outs →
  print_kvs subx headers values default_cfg column_cfgs
  = (concat (imap (fun n out =>
               flat_map (fun kvs : pyval * list string =>
                           map (format_line n kvs.1) kvs.2) out) outs), None)
  ∧ length (print_kvs subx headers values default_cfg column_cfgs).1
    = sum_list (map (fun out =>
        sum_list (map (fun kvs : pyval * list string => length kvs.2) out)) outs).
Proof.
  intros Hinit Hall. unfold print_kvs. rewrite Hinit.
  rewrite (print_rows_Ok _ _ _ _ 0 Hall). split; [done|].
  exact (length_all_row_lines 0 outs).
Qed.

Lemma print_kvs_prints_every_value_witness :
  print_kvs (fun _ => Raise ReError) ["A"; "B"] [["1"; "x;y"]; ["2"; "z"]] None
    [ {[ "name" := VStr "B"; "split" := VStr ";" ]};
      {[ "name" := VStr "A"; "visible" := VBool false ]} ]
  = ([" 0          B : x"; " 0          B : y"; " 0        __A : 1";
      " 1          B : z"; " 1        __A : 2"], None).
Proof.
  refine (eq_trans (proj1 (print_kvs_prints_every_value (fun _ => Raise ReError)
              ["A"; "B"] None
              [ {[ "name" := VStr "B"; "split" := VStr ";" ]};
                {[ "name" := VStr "A"; "visible" := VBool false ]} ] _
              [["1"; "x;y"]; ["2"; "z"]]
              [ [(VStr "B", ["x"; "y"]); (VStr "__A", ["1"])];
                [(VStr "B", ["z"]); (VStr "__A", ["2"])] ] _ _)) _).
  - vm_compute; reflexivity.
  - repeat constructor.
  - vm_compute; reflexivity.
Defined.
